(** * OCR_VoiceChat: the chat session store and the document retriever

    A shallow embedding of [middleware/chat_history.py],
    [middleware/document_retriever.py], [middleware/fastAPI.py] and the
    model calls of [middleware/textextraction_bckup.py], and the
    properties of the design document that can be settled on it.

    Conventions of the embedding:
    - Python values that reach [json] are terms of [json]: [None],
      booleans, integers, strings, lists, tuples and dicts with string
      keys, a [dict] being an association list in insertion order;
      floats and keys of other types are not modelled;
    - texts are strings of code points below 256;
    - a raised exception is [Raise e], a normal return is [Ok v];
    - the file system is the tree the operating system resolves paths
      in: which directories exist is given by the environment, the
      regular files are the state; symbolic links are not modelled, and
      no directory is named like a session file;
    - [uuid.uuid4()] and [datetime.utcnow()] read the environment: their
      results are arguments of [add_message];
    - [json.dumps]/[json.loads], the embedding model, NumPy and the
      external hybrid retriever are interfaces, with reference instances
      to run the code on concrete inputs. *)

From Stdlib Require Import ZArith QArith Lia Ascii String List Bool DecimalPos DecimalZ.
From stdpp Require Import base option strings list gmap sorting.

Open Scope string_scope.
Open Scope list_scope.
Open Scope nat_scope.

(** ** Python values and exceptions *)

(** The exception classes the code can meet. [JSONDecodeError] and
    [UnicodeDecodeError] are subclasses of [ValueError] in Python;
    [ValueError] here is a [ValueError] of neither subclass, and likewise
    [FileNotFoundError], [NotADirectoryError] and [IsADirectoryError] are
    told apart, as an [except] clause tells them apart. *)
Inductive exn : Set :=
| AttributeError | KeyError | TypeError | IndexError | ValueError | RuntimeError
| JSONDecodeError | UnicodeDecodeError | RecursionError
| FileNotFoundError | NotADirectoryError | IsADirectoryError.

Inductive result (A : Type) : Type :=
| Ok (a : A)
| Raise (e : exn).
Arguments Ok {A} a.
Arguments Raise {A} e.

#[global] Instance exn_eq_dec : EqDecision exn.
Proof. solve_decision. Defined.
#[global] Instance result_eq_dec {A} `{EqDecision A} : EqDecision (result A).
Proof. solve_decision. Defined.

#[global] Instance result_ret : MRet result := fun A a => Ok a.
#[global] Instance result_bind : MBind result := fun A B f m =>
  match m with Ok a => f a | Raise e => Raise e end.

Unset Elimination Schemes.
Inductive json : Type :=
| JNull
| JBool (b : bool)
| JInt (n : Z)
| JStr (s : string)
| JList (l : list json)
| JDict (d : list (string * json))
| JTuple (l : list json).
Set Elimination Schemes.

(** Induction on values, with the hypothesis for every element of a
    list or tuple and every value of a dict. *)

Section JsonInd.
Variable P : json -> Prop.
Hypothesis Hnull : P JNull.
Hypothesis Hbool : forall b, P (JBool b).
Hypothesis Hint : forall n, P (JInt n).
Hypothesis Hstr : forall s, P (JStr s).
Hypothesis Hlist : forall l, Forall P l -> P (JList l).
Hypothesis Hdict : forall d, Forall (fun kv => P kv.2) d -> P (JDict d).
Hypothesis Htuple : forall l, Forall P l -> P (JTuple l).

Fixpoint json_ind (v : json) : P v :=
  match v with
  | JNull => Hnull
  | JBool b => Hbool b
  | JInt n => Hint n
  | JStr s => Hstr s
  | JList l =>
      Hlist l ((fix go (l : list json) : Forall P l :=
                  match l with
                  | [] => @List.Forall_nil _ P
                  | x :: l' => @List.Forall_cons _ P x l' (json_ind x) (go l')
                  end) l)
  | JDict d =>
      Hdict d ((fix go (d : list (string * json)) : Forall (fun kv => P kv.2) d :=
                  match d with
                  | [] => @List.Forall_nil _ (fun kv => P kv.2)
                  | kv :: d' => @List.Forall_cons _ (fun kv => P kv.2) kv d' (json_ind kv.2) (go d')
                  end) d)
  | JTuple l =>
      Htuple l ((fix go (l : list json) : Forall P l :=
                   match l with
                   | [] => @List.Forall_nil _ P
                   | x :: l' => @List.Forall_cons _ P x l' (json_ind x) (go l')
                   end) l)
  end.
End JsonInd.

Module Py.

(** [d.get(k)] on the association list of a dict. *)
Fixpoint lookup (d : list (string * json)) (k : string) : option json :=
  match d with
  | [] => None
  | (k', v) :: d' => if String.eqb k' k then Some v else lookup d' k
  end.

(** [d[k] = v]: the value is replaced in place, a new key goes last. *)
Fixpoint setitem (d : list (string * json)) (k : string) (v : json)
  : list (string * json) :=
  match d with
  | [] => [(k, v)]
  | (k', v') :: d' =>
      if String.eqb k' k then (k', v) :: d' else (k', v') :: setitem d' k v
  end.

(** Truth value of an object: [None], [False], [0], and the empty
    string, list, tuple and dict are false. *)
Definition truthy (v : json) : bool :=
  match v with
  | JNull => false
  | JBool b => b
  | JInt n => negb (n =? 0)%Z
  | JStr s => negb (String.eqb s "")
  | JList l | JTuple l => match l with [] => false | _ => true end
  | JDict d => match d with [] => false | _ => true end
  end.

(** [m[k]] for a string key. *)
Definition getitem (m : json) (k : string) : result json :=
  match m with
  | JDict d => match lookup d k with Some v => Ok v | None => Raise KeyError end
  | _ => Raise TypeError
  end.

(** [m.get(k, dflt)]: only a dict has the method. *)
Definition get (m : json) (k : string) (dflt : json) : result json :=
  match m with
  | JDict d => Ok (default dflt (lookup d k))
  | _ => Raise AttributeError
  end.

Fixpoint chars (s : string) : list json :=
  match s with
  | EmptyString => []
  | String c s' => JStr (String c EmptyString) :: chars s'
  end.

(** [for m in v]: the elements of a list or tuple, the keys of a dict,
    the characters of a string. *)
Definition iter (v : json) : result (list json) :=
  match v with
  | JList l | JTuple l => Ok l
  | JDict d => Ok (map (fun kv => JStr kv.1) d)
  | JStr s => Ok (chars s)
  | _ => Raise TypeError
  end.

Definition len (v : json) : result nat :=
  match v with
  | JList l | JTuple l => Ok (List.length l)
  | JDict d => Ok (List.length d)
  | JStr s => Ok (String.length s)
  | _ => Raise TypeError
  end.

(** [v[-1]]. *)
Definition last (v : json) : result json :=
  match v with
  | JList l | JTuple l =>
      match List.last (map Some l) None with
      | Some x => Ok x | None => Raise IndexError end
  | JStr s => match List.last (map Some (chars s)) None with
              | Some x => Ok x | None => Raise IndexError end
  | JDict _ => Raise KeyError
  | _ => Raise TypeError
  end.

(** [v.append(x)]: only a list has the method. *)
Definition append (v x : json) : result json :=
  match v with
  | JList l => Ok (JList (l ++ [x]))
  | _ => Raise AttributeError
  end.

(** [v == s] for a string literal [s]. *)
Definition eq_str (v : json) (s : string) : bool :=
  match v with JStr s' => String.eqb s' s | _ => false end.

(** [o or {}] for an optional dict argument. *)
Definition or_empty (o : option (list (string * json))) : json :=
  match o with
  | Some (kv :: d) => JDict (kv :: d)
  | _ => JDict []
  end.

End Py.

(** A value is well formed when it is a JSON value: no dict in it has a
    repeated key, and it holds no tuple. *)
Fixpoint json_wf (v : json) : bool :=
  match v with
  | JList l => forallb json_wf l
  | JDict d => bool_decide (NoDup (map fst d)) && forallb (fun kv => json_wf kv.2) d
  | JTuple _ => false
  | _ => true
  end.

(** The JSON value a Python value is written as: a tuple becomes an
    array (the conversion table of the [json] module). *)
Fixpoint as_json (v : json) : json :=
  match v with
  | JList l | JTuple l => JList (map as_json l)
  | JDict d => JDict (map (fun kv => (kv.1, as_json kv.2)) d)
  | _ => v
  end.

(** A value nested at most [depth] containers deep whose integers have
    at most 640 digits. *)
Fixpoint json_small_upto (depth : nat) (v : json) {struct v} : bool :=
  match v with
  | JInt n => (Z.abs n <? 10 ^ 640)%Z
  | JList l | JTuple l =>
      match depth with
      | 0 => false
      | S depth' => forallb (json_small_upto depth') l
      end
  | JDict d =>
      match depth with
      | 0 => false
      | S depth' => forallb (fun kv => json_small_upto depth' kv.2) d
      end
  | _ => true
  end.

(** Values that the interpreter always has the room to print: the limit
    on the digits of an integer cannot be set below 640, and 32 nested
    containers are far from the recursion limit. *)
Definition json_small : json -> bool := json_small_upto 32.

(** ** The [json] module and the text of a file *)

(** [dumps v] is [json.dumps(v, indent=2)]: it raises on an integer of
    too many digits ([ValueError]) and on too deep a nesting
    ([RecursionError]), never on a small value, and writes a tuple as the
    list of its elements. [loads b] is what [json.loads] makes of the
    text read from a file of bytes [b], with the exception it raises:
    [JSONDecodeError] for text that is not JSON, [UnicodeDecodeError] for
    bytes that are not text, [RecursionError], [ValueError]. What [dumps]
    wrote is read back, what is read is a JSON value, and the empty file
    is not JSON. *)
Class JsonCodec : Type := {
  dumps : json -> result string;
  loads : string -> result json;
  dumps_tuple : forall v, dumps v = dumps (as_json v);
  dumps_small : forall v, json_small v = true -> exists s, dumps v = Ok s;
  loads_dumps : forall v s, json_wf v = true -> dumps v = Ok s -> loads s = Ok v;
  loads_wf : forall s v, loads s = Ok v -> json_wf v = true;
  loads_empty : loads "" = Raise JSONDecodeError
}.

(** ** The file system *)

Module Os.

(** Where a file or directory is: the names from the root down. *)
Definition location := list string.

(** The environment of the process: its working directory and the
    directories that exist. The code creates none after [__init__]. *)
Class World : Type := {
  cwd : location;
  is_dir : location -> bool
}.

(** The regular files and their contents. *)
Record files : Type := Files { regular : gmap location string }.

(** The names of a path: its pieces between slashes. *)
Fixpoint components (path : string) : list string :=
  match path with
  | EmptyString => [EmptyString]
  | String c rest =>
      if Ascii.eqb c "/" then EmptyString :: components rest
      else match components rest with
           | name :: names => String c name :: names
           | [] => [String c EmptyString]
           end
  end.

(** A text without a slash: one name. *)
Fixpoint no_slash (s : string) : bool :=
  match s with
  | EmptyString => true
  | String c s' => negb (Ascii.eqb c "/") && no_slash s'
  end.

Section Resolution.
Context `{World}.

Definition is_file (fs : files) (p : location) : bool :=
  bool_decide (is_Some (regular fs !! p)).

(** Walking down the directories [names] from [cur]: an empty name and
    [.] stay, [..] goes up, any other name must be a directory. *)
Fixpoint descend (fs : files) (cur : location) (names : list string)
  : result location :=
  match names with
  | [] => Ok cur
  | name :: names' =>
      if String.eqb name "" || String.eqb name "." then descend fs cur names'
      else if String.eqb name ".." then descend fs (removelast cur) names'
      else
        let next := cur ++ [name] in
        if is_dir next then descend fs next names'
        else if is_file fs next then Raise NotADirectoryError
        else Raise FileNotFoundError
  end.

(** A path is absolute when it begins with a slash. *)
Definition start (path : string) : location :=
  match path with
  | String "/" _ => []
  | _ => cwd
  end.

(** The place of the file that [path] names: every name but the last is
    walked as a directory, the last is the name of the file. *)
Definition locate (fs : files) (path : string) : result location :=
  let names := components path in
  dir ← descend fs (start path) (removelast names);
  let name := List.last names "" in
  if String.eqb name "" || String.eqb name "." || String.eqb name ".."
  then Raise IsADirectoryError
  else Ok (dir ++ [name]).

(** [path] names a directory that exists, as after
    [os.makedirs(path, exist_ok=True)], which raises on the empty
    path. *)
Definition is_directory (path : string) : bool :=
  negb (String.eqb path "")
  && match descend (Files ∅) (start path) (components path) with
     | Ok _ => true
     | Raise _ => false
     end.


(** [open(path, 'w')] followed by the write of [text]: the file is
    created or replaced. *)
Definition write (fs : files) (path text : string) : result files :=
  k ← locate fs path;
  Ok (Files (<[k := text]> (regular fs))).

End Resolution.

(** [fs !! path] is the content of the regular file that [path] names,
    if there is one: [os.path.exists(path)] is [is_Some (fs !! path)].
    [delete path fs] is [os.remove(path)] on such a file. *)
#[global] Instance files_empty : Empty files := Files ∅.
#[global] Instance files_lookup `{World} : Lookup string string files :=
  fun path fs =>
    match locate fs path with
    | Ok k => regular fs !! k
    | Raise _ => None
    end.
#[global] Instance files_delete `{World} : Delete string files :=
  fun path fs =>
    match locate fs path with
    | Ok k => Files (delete k (regular fs))
    | Raise _ => fs
    end.

End Os.

(** ** chat_history.py *)

Module ChatHistory.

Abbreviation files := Os.files.

Definition ends_with_slash (s : string) : bool :=
  match List.last (map Some (list_ascii_of_string s)) None with
  | Some c => Ascii.eqb c "/"
  | None => false
  end.

(** [os.path.join(a, b)] of [posixpath]. *)
Definition path_join (a b : string) : string :=
  match b with
  | String "/" _ => b
  | _ => if String.eqb a "" || ends_with_slash a then a +:+ b
         else a +:+ "/" +:+ b
  end.

Section Store.
Context `{JsonCodec} `{Os.World}.

(** An object of the class: [__init__] has run, so the storage
    directory exists. *)
Record t : Type := {
  storage_dir : string;
  storage_ready : Os.is_directory storage_dir = true
}.

Definition _get_session_path (self : t) (session_id : string) : string :=
  path_join (storage_dir self) (session_id +:+ ".json").

(** Only [JSONDecodeError] and [FileNotFoundError] are caught. *)
Definition get_messages (self : t) (fs : files) (session_id : string)
  : result json :=
  let file_path := _get_session_path self session_id in
  match fs !! file_path with
  | None => Ok (JList [])
  | Some content =>
      match loads content with
      | Ok data => Py.get data "messages" (JList [])
      | Raise JSONDecodeError | Raise FileNotFoundError => Ok (JList [])
      | Raise e => Raise e
      end
  end.

Definition new_message (uid now role content : string)
    (document_context metadata : option (list (string * json))) : json :=
  JDict [ ("id", JStr uid);
          ("timestamp", JStr now);
          ("role", JStr role);
          ("content", JStr content);
          ("document_context", Py.or_empty document_context);
          ("metadata", Py.or_empty metadata) ].

(** [uid] is the result of [uuid.uuid4()] and [now] that of
    [datetime.utcnow().isoformat()] at this call. The history is read
    and extended, then the file is opened for writing, which creates or
    empties it, and only then [json.dumps] runs: when it raises, the
    file stays empty. *)
Definition add_message (self : t) (fs : files) (uid now : string)
    (session_id role content : string)
    (document_context metadata : option (list (string * json)))
  : result json * files :=
  let message := new_message uid now role content document_context metadata in
  match get_messages self fs session_id with
  | Raise e => (Raise e, fs)
  | Ok messages =>
      match Py.append messages message with
      | Raise e => (Raise e, fs)
      | Ok messages' =>
          let file_path := _get_session_path self session_id in
          match Os.write fs file_path "" with
          | Raise e => (Raise e, fs)
          | Ok opened =>
              match dumps (JDict [("messages", messages')]) with
              | Raise e => (Raise e, opened)
              | Ok text =>
                  match Os.write opened file_path text with
                  | Raise e => (Raise e, opened)
                  | Ok written => (Ok message, written)
                  end
              end
          end
      end
  end.

Definition clear_session (self : t) (fs : files) (session_id : string)
  : bool * files :=
  let file_path := _get_session_path self session_id in
  match fs !! file_path with
  | Some _ => (true, delete file_path fs)
  | None => (false, fs)
  end.

Record stats : Type := {
  total_messages : nat;
  user_messages : nat;
  assistant_messages : nat;
  has_document_context : bool;
  last_message_at : json
}.

(** [[m for m in messages if m["role"] == role]] *)
Fixpoint with_role (role : string) (ms : list json) : result (list json) :=
  match ms with
  | [] => Ok []
  | m :: ms' =>
      r ← Py.getitem m "role";
      rest ← with_role role ms';
      Ok (if Py.eq_str r role then m :: rest else rest)
  end.

(** [any(m.get("document_context") for m in messages)] *)
Fixpoint any_document_context (ms : list json) : result bool :=
  match ms with
  | [] => Ok false
  | m :: ms' =>
      c ← Py.get m "document_context" JNull;
      if Py.truthy c then Ok true else any_document_context ms'
  end.

(** The body of [get_session_stats] after the call of [get_messages]. *)
Definition stats_of (messages : json) : result stats :=
  ms ← Py.iter messages;
  user ← with_role "user" ms;
  assistant ← with_role "assistant" ms;
  total ← Py.len messages;
  has_ctx ← any_document_context ms;
  last_at ← (if Py.truthy messages
             then m ← Py.last messages; Py.getitem m "timestamp"
             else Ok JNull);
  Ok {| total_messages := total;
        user_messages := List.length user;
        assistant_messages := List.length assistant;
        has_document_context := has_ctx;
        last_message_at := last_at |}.

Definition get_session_stats (self : t) (fs : files) (session_id : string)
  : result stats :=
  messages ← get_messages self fs session_id;
  stats_of messages.

End Store.
End ChatHistory.
(** ** NumPy and the embedding model *)

(** The numbers of an embedding and what NumPy does on them. [leb] is
    [<=]; [eps] is [1e-9]; [tolist_dumps v] is [json.dumps(v.tolist())].
    [argsort scores] is [np.argsort(scores)] with the default sort, which
    is not stable: it lists every index once, in ascending order of score
    when no score is a NaN, and the order it gives to equal scores is not
    specified. *)
Class NumPy : Type := {
  num : Type;
  zero : num;
  add : num -> num -> num;
  mul : num -> num -> num;
  div : num -> num -> num;
  sqrt : num -> num;
  eps : num;
  leb : num -> num -> bool;
  tolist_dumps : list num -> string;
  argsort : list num -> list nat;
  argsort_perm : forall scores, argsort scores ≡ₚ seq 0 (List.length scores);
  argsort_sorted : forall scores a b i j si sj,
    (forall s, s ∈ scores -> leb s s = true) ->
    a < b ->
    argsort scores !! a = Some i -> argsort scores !! b = Some j ->
    scores !! i = Some si -> scores !! j = Some sj ->
    leb si sj = true
}.

Module Np.
Section Arrays.
Context `{NumPy}.

Definition vector := list num.
Definition matrix := list vector.

(** Inner product of two vectors of the same length. *)
Definition vdot (u v : vector) : num :=
  foldr add zero (zip_with mul u v).

(** [np.linalg.norm] of a vector. *)
Definition vnorm (u : vector) : num :=
  sqrt (foldr add zero (map (fun x => mul x x) u)).

(** [np.dot(E, q)]: shapes [(N, D)] and [(D,)] must agree. *)
Definition dot (E : matrix) (q : vector) : result (list num) :=
  if forallb (fun row : vector => Nat.eqb (List.length row) (List.length q)) E
  then Ok (map (fun row => vdot row q) E)
  else Raise ValueError.

(** [np.linalg.norm(E, axis=1)] *)
Definition norm_rows (E : matrix) : list num := map vnorm E.

(** [l[-k:]] for a Python integer [k]. *)
Definition slice_last {A} (k : Z) (l : list A) : list A :=
  if (0 <? k)%Z then drop (List.length l - Z.to_nat k) l
  else drop (Z.to_nat (- k)) l.

End Arrays.
End Np.

(** ** document_retriever.py *)

Module DocumentRetriever.
Import Np.

(** [str.isspace] on the code points below 256. *)
Definition is_space (c : ascii) : bool :=
  let n := nat_of_ascii c in
  (Nat.leb 9 n && Nat.leb n 13) || (Nat.leb 28 n && Nat.leb n 32)
  || Nat.eqb n 133 || Nat.eqb n 160.

Fixpoint lstrip (s : list ascii) : list ascii :=
  match s with
  | c :: s' => if is_space c then lstrip s' else s
  | [] => []
  end.

(** [s.strip()] *)
Definition strip (s : string) : string :=
  string_of_list_ascii
    (rev (lstrip (rev (lstrip (list_ascii_of_string s))))).

(** *** The nested class [SimpleRetriever] *)

Module SimpleRetriever.
Section Scorer.
Context `{NumPy}.

Record t : Type := {
  documents : list string;
  embeddings : matrix
}.

(** The cosine similarities of line 67. *)
Definition cosine_scores (E : matrix) (q : vector) : result (list num) :=
  dots ← dot E q;
  Ok (zip_with div dots
        (map (fun n => add (mul n (vnorm q)) eps) (norm_rows E))).

(** [np.argsort(scores)[-k:][::-1]] *)
Definition top_indices (scores : list num) (k : Z) : list nat :=
  rev (slice_last k (argsort scores)).

(** [[l[i] for i in idx]]: an index out of range raises. *)
Fixpoint pick {A} (l : list A) (idx : list nat) : result (list A) :=
  match idx with
  | [] => Ok []
  | i :: idx' =>
      match l !! i with
      | Some x => rest ← pick l idx'; Ok (x :: rest)
      | None => Raise IndexError
      end
  end.

(** The [try] block of [retrieve]. *)
Definition retrieve_body (self : t) (query_embedding : vector) (k : Z)
  : result (list string * list num) :=
  scores ← cosine_scores (embeddings self) query_embedding;
  let top := top_indices scores k in
  results ← pick (documents self) top;
  result_scores ← pick scores top;
  Ok (results, result_scores).

(** [retrieve]: any exception of the body is logged and the empty result
    returned. *)
Definition retrieve (self : t) (query_embedding : vector) (k : Z)
  : list string * list num :=
  match retrieve_body self query_embedding k with
  | Ok r => r
  | Raise _ => ([], [])
  end.

End Scorer.
End SimpleRetriever.

(** *** The retriever *)

Section Retriever.
Context `{NumPy}.

Record t : Type := {
  documents : list string;
  document_embeddings : option matrix
}.

(** The state after [__init__]. *)
Definition init : t := {| documents := []; document_embeddings := None |}.

(** What [hybrid_retrieve] of the external package returns: a dict
    that may have the keys ['documents'] and ['scores']. *)
Record hybrid_result : Type := {
  hr_documents : option (list string);
  hr_scores : option (list num)
}.

Record hit : Type := {
  content : string;
  score : num;
  semantic_score : num;
  bm25_score : num
}.

Section External.
(** [embedding_model.encode] on a list of texts and on one query,
    and [hybrid_retriever.hybrid_retrieve]. *)
Variable encode : list string -> result matrix.
Variable encode_query : string -> result vector.
Variable hybrid_retrieve :
  list string -> SimpleRetriever.t -> string -> result hybrid_result.

Definition clean (chunks : list string) : list string :=
  map strip (filter (fun c => strip c ≠ "") chunks).

(** [add_documents]: the documents are assigned before the
    embeddings are computed. *)
Definition add_documents (self : t) (chunks : list string)
  : result unit * t :=
  match chunks with
  | [] => (Ok tt, self)
  | _ =>
      let self1 := {| documents := clean chunks;
                      document_embeddings := document_embeddings self |} in
      match documents self1 with
      | [] => (Ok tt, self1)
      | _ =>
          match encode (documents self1) with
          | Ok e => (Ok tt, {| documents := documents self1;
                               document_embeddings := Some e |})
          | Raise e => (Raise e, self1)
          end
      end
  end.

Definition format_results (r : hybrid_result) : list hit :=
  match hr_documents r, hr_scores r with
  | Some docs, Some scores =>
      zip_with (fun doc s => {| content := doc; score := s;
                                semantic_score := s; bm25_score := s |})
        docs scores
  | _, _ => []
  end.

Definition retrieve (self : t) (query : string) (top_k : Z)
    (semantic_weight bm25_weight : num) : list hit :=
  match documents self, document_embeddings self with
  | [], _ | _, None => []
  | docs, Some emb =>
      match (query_embedding ← encode_query query;
             let semantic_retriever :=
               {| SimpleRetriever.documents := docs;
                  SimpleRetriever.embeddings := emb |} in
             results ← hybrid_retrieve docs semantic_retriever query;
             Ok (format_results results)) with
      | Ok r => r
      | Raise _ => []
      end
  end.

End External.
End Retriever.
End DocumentRetriever.

(** ** models.py and the ingest of fastAPI.py *)

Module Upload.
Import Np.

(** A row of the table [document_chunks]; its [id] is its position in
    the table. *)
Record DocumentChunk : Type := {
  text : string;
  embedding : string
}.

Section Ingest.
Context `{NumPy}.

(** The embedding model, and the database at [db.commit()]: given the
    table and the rows added to the session, it stores them all or
    raises and stores none. *)
Variable encode : list string -> result matrix.
Variable commit : list DocumentChunk -> list DocumentChunk -> result unit.

(** One row per pair of [zip(chunks, embeddings)]. *)
Definition rows_of (chunks : list string) (embeddings : matrix)
  : list DocumentChunk :=
  zip_with (fun text emb => {| text := text; embedding := tolist_dumps emb |})
    chunks embeddings.

(** How an ingest ends: the embedding model raised, or the insert did,
    which the handler turns into an [HTTPException]. *)
Inductive outcome : Type :=
| Ingested
| ModelError (e : exn)
| DbError (e : exn).

(** Lines 152 to 174 of [upload]: embed the chunks, insert one row per
    pair, reload every row into the retriever. The state is the table
    and the retriever. *)
Definition ingest (db : list DocumentChunk) (r : DocumentRetriever.t)
    (chunks : list string)
  : outcome * (list DocumentChunk * DocumentRetriever.t) :=
  match encode chunks with
  | Raise e => (ModelError e, (db, r))
  | Ok embeddings =>
      let rows := rows_of chunks embeddings in
      match commit db rows with
      | Raise e => (DbError e, (db, r))
      | Ok _ =>
          let db' := db ++ rows in
          let docs := map text db' in
          let r1 := {| DocumentRetriever.documents := docs;
                       DocumentRetriever.document_embeddings :=
                         DocumentRetriever.document_embeddings r |} in
          match encode docs with
          | Raise e => (ModelError e, (db', r1))
          | Ok e => (Ingested, (db', {| DocumentRetriever.documents := docs;
                                        DocumentRetriever.document_embeddings := Some e |}))
          end
      end
  end.
End Ingest.
End Upload.

(** ** Strings as Python slices them *)

Module Str.

(** The first [n] characters. *)
Fixpoint take (n : nat) (s : string) : string :=
  match n, s with
  | S n', String c s' => String c (take n' s')
  | _, _ => EmptyString
  end.

(** [s[:m]] for a Python integer [m]: a negative [m] counts from the end. *)
Definition slice_to (m : Z) (s : string) : string :=
  if (0 <=? m)%Z then take (Z.to_nat m) s
  else take (String.length s - Z.to_nat (- m)) s.

(** [sep.join(l)] *)
Fixpoint join (sep : string) (l : list string) : string :=
  match l with
  | [] => EmptyString
  | [x] => x
  | x :: l' => x +:+ sep +:+ join sep l'
  end.

Fixpoint starts_with (p s : string) : bool :=
  match p, s with
  | EmptyString, _ => true
  | String a p', String b s' => Ascii.eqb a b && starts_with p' s'
  | String _ _, EmptyString => false
  end.

(** [x in s] *)
Fixpoint contains (x s : string) : bool :=
  starts_with x s
  || match s with
     | EmptyString => false
     | String _ s' => contains x s'
     end.

Definition newline : string := String "010" EmptyString.

End Str.

(** ** textextraction_bckup.py *)

Module TextExtraction.

(** What [llm.invoke] may return: a dict, an object with an attribute
    [content], or anything else. *)
Inductive llm_response : Type :=
| RespDict (d : list (string * json))
| RespObject (content : json)
| RespOther.

(** What [ask_llm] returns: a value taken from the response, or the text
    ["Error processing your request: "] followed by the message of the
    exception [e]. *)
Inductive reply : Type :=
| Reply (v : json)
| ErrorReply (e : exn).

(** [v[0]] *)
Definition first (v : json) : result json :=
  match v with
  | JList (x :: _) => Ok x
  | JList [] => Raise IndexError
  | JStr (String c _) => Ok (JStr (String c EmptyString))
  | JStr EmptyString => Raise IndexError
  | JDict _ => Raise KeyError
  | _ => Raise TypeError
  end.

Section Llm.
(** [llm.invoke] on the one user message with the given content, and
    [str] of a response. *)
Variable invoke : string -> result llm_response.
Variable str_response : llm_response -> string.

(** The context as it goes into the prompt. *)
Definition truncated (context : string) (max_context_length : Z) : string :=
  if (max_context_length <? Z.of_nat (String.length context))%Z
  then Str.slice_to max_context_length context +:+ "... [truncated]"
  else context.

(** The f-string of [ask_llm], line by line. *)
Definition prompt (query context : string) : string :=
  Str.newline
  +:+ "        You are a helpful assistant. Use the following document excerpts to answer the question."
  +:+ Str.newline +:+ "    " +:+ Str.newline
  +:+ "        Document Context:" +:+ Str.newline
  +:+ "        " +:+ context +:+ Str.newline
  +:+ "    " +:+ Str.newline
  +:+ "        Question: " +:+ query +:+ Str.newline
  +:+ "    " +:+ Str.newline
  +:+ "        Answer:" +:+ Str.newline
  +:+ "        ".

(** The first unwrapping of the response; what follows its last [return]
    in the source is never reached. *)
Definition unwrap (response : llm_response) : result json :=
  match response with
  | RespDict d =>
      match Py.lookup d "choices" with
      | Some choices =>
          choice ← first choices;
          message ← Py.getitem choice "message";
          Py.getitem message "content"
      | None =>
          match Py.lookup d "content" with
          | Some content => Ok content
          | None => Ok (JStr (str_response response))
          end
      end
  | RespObject content => Ok content
  | RespOther => Ok (JStr (str_response response))
  end.

Definition ask_llm (query context : string) (max_context_length : Z) : reply :=
  let context := truncated context max_context_length in
  match invoke (prompt query context) ≫= unwrap with
  | Ok v => Reply v
  | Raise e => ErrorReply e
  end.

End Llm.

(** What [bedrock_client.invoke_model] does with the request built from a
    prompt: return a response whose body reads as a text, raise
    [ClientError] with a message, or raise something else. *)
Inductive call_outcome : Type :=
| Returned (body : string)
| ClientError (message : string)
| CallFailed (e : exn).

(** What [invoke_claude_bedrock] returns: a text, [None], or one of its
    two error texts (for a [ClientError], for another exception). *)
Inductive bedrock_reply : Type :=
| BText (s : string)
| BNone
| BClientError (message : string)
| BError (e : exn).

(** [[item["text"] for item in items if item.get("type") == "text"]] *)
Fixpoint text_items (items : list json) : result (list json) :=
  match items with
  | [] => Ok []
  | item :: items' =>
      ty ← Py.get item "type" JNull;
      if Py.eq_str ty "text"
      then x ← Py.getitem item "text";
           rest ← text_items items';
           Ok (x :: rest)
      else text_items items'
  end.

(** The strings that [str.join] accepts. *)
Fixpoint strings_of (l : list json) : result (list string) :=
  match l with
  | [] => Ok []
  | JStr s :: l' => rest ← strings_of l'; Ok (s :: rest)
  | _ :: _ => Raise TypeError
  end.

Section Bedrock.
Context `{JsonCodec}.
Variable invoke_model : string -> call_outcome.

Definition invoke_claude_bedrock (prompt : string) : bedrock_reply :=
  match invoke_model prompt with
  | ClientError message => BClientError message
  | CallFailed e => BError e
  | Returned body =>
      match loads body with
      | Raise e => BError e
      | Ok response_body =>
          match (content ← Py.get response_body "content" (JList []);
                 items ← Py.iter content;
                 texts ← text_items items;
                 match texts with
                 | [] => Ok None
                 | _ => strs ← strings_of texts;
                        Ok (Some (Str.join Str.newline strs))
                 end) with
          | Ok (Some s) => BText s
          | Ok None => BNone
          | Raise e => BError e
          end
      end
  end.

End Bedrock.
End TextExtraction.

(** ** The endpoints of fastAPI.py *)

Module FastAPI.
Import Np DocumentRetriever.

Definition markers : list string :=
  ["OCRPageObj"; "image_annotation"; "dimensions=OCRPageDimensions"].

Definition is_text_chunk (chunk : string) : bool :=
  Nat.ltb 30 (String.length (strip chunk))
  && negb (existsb (fun x => Str.contains x chunk) markers).

Definition no_documents : string :=
  "No documents available. Please upload a document first.".
Definition nothing_relevant : string :=
  "I couldn't find relevant information in the document.".

Section Ask.
Context `{NumPy}.
Variable encode_query : string -> result vector.
Variable invoke : string -> result TextExtraction.llm_response.
Variable str_response : TextExtraction.llm_response -> string.

(** The response of [/ask]: a dict with an answer only, a dict with the
    answer, the context and the score, or the dict with the error. *)
Inductive ask_response : Type :=
| AnswerOnly (answer : string)
| Answered (answer : TextExtraction.reply) (context : string) (score : num)
| AskError.

(** The f-string of [ask_question]. *)
Definition prompt (query context : string) : string :=
  "You are an AI assistant. Use the following document excerpts to answer the user's question as specifically as possible."
  +:+ Str.newline +:+ Str.newline
  +:+ "Document Excerpts:" +:+ Str.newline
  +:+ context +:+ Str.newline +:+ Str.newline
  +:+ "User Question: " +:+ query +:+ Str.newline +:+ Str.newline
  +:+ "Answer:".

Definition separator : string := Str.newline +:+ "---" +:+ Str.newline.

(** [context[:500] + "..." if len(context) > 500 else context] *)
Definition preview (context : string) : string :=
  if Nat.ltb 500 (String.length context)
  then Str.slice_to 500 context +:+ "..."
  else context.

Definition ask_question (retriever : DocumentRetriever.t) (query : string)
  : ask_response :=
  match documents retriever, document_embeddings retriever with
  | [], _ | _, None => AnswerOnly no_documents
  | docs, Some emb =>
      let semantic_retriever :=
        {| SimpleRetriever.documents := docs;
           SimpleRetriever.embeddings := emb |} in
      match encode_query query with
      | Raise _ => AskError
      | Ok query_embedding =>
          let '(docs, scores) :=
            SimpleRetriever.retrieve semantic_retriever query_embedding 3 in
          let filtered_docs := List.filter is_text_chunk docs in
          let filtered_scores :=
            map snd (List.filter (fun ds => is_text_chunk ds.1) (zip docs scores)) in
          match filtered_docs with
          | [] => AnswerOnly nothing_relevant
          | _ =>
              let context := Str.join separator filtered_docs in
              let answer :=
                TextExtraction.ask_llm invoke str_response query
                  (prompt query context) 4000 in
              Answered answer (preview context)
                (match filtered_scores with s :: _ => s | [] => zero end)
          end
      end
  end.

End Ask.

(** *** [/upload] *)

(** What is raised inside the handler: an [HTTPException] of the handler
    itself, or another exception. *)
Inductive detail : Type :=
| OcrFailed (e : exn)
| NoTextExtracted
| NoValidChunks
| DbFailed (e : exn).

Inductive raised : Type :=
| HTTPException (status_code : nat) (d : detail)
| Exception (e : exn).

(** The response: the dict of a processed document, or the
    [HTTPException] that leaves the handler, whose detail is
    ["Error processing file: "] followed by the text of [cause]. *)
Inductive upload_response : Type :=
| Processed (chunks text_length : nat)
| Rejected (status_code : nat) (cause : raised).

Section UploadHandler.
Context `{NumPy}.

(** The table, the retriever and the working directory. *)
Record app : Type := {
  db : list Upload.DocumentChunk;
  retriever : DocumentRetriever.t;
  files : gmap string string
}.

(** [MistralOCR(file_path, api_key).extract()] on a file of the given
    content, [chunk_text(text, max_tokens)], the embedding model, and
    the database at [db.commit()]. *)
Variable ocr_extract : string -> string -> result string.
Variable chunk_text : string -> Z -> result (list string).
Variable encode : list string -> result matrix.
Variable commit :
  list Upload.DocumentChunk -> list Upload.DocumentChunk -> result unit.

(** The [try] block up to the removal of the temporary file. *)
Definition upload_body (st : app) (temp_file content : string)
  : (raised + nat * nat) * (list Upload.DocumentChunk * DocumentRetriever.t) :=
  let unchanged := (db st, retriever st) in
  match ocr_extract temp_file content with
  | Raise e => (inl (HTTPException 500 (OcrFailed e)), unchanged)
  | Ok ocr_text =>
      if String.eqb (strip ocr_text) ""
      then (inl (HTTPException 400 NoTextExtracted), unchanged)
      else
        match chunk_text ocr_text 1500 with
        | Raise e => (inl (Exception e), unchanged)
        | Ok raw_chunks =>
            let chunks := List.filter is_text_chunk raw_chunks in
            match chunks with
            | [] => (inl (HTTPException 400 NoValidChunks), unchanged)
            | _ =>
                match Upload.ingest encode commit (db st) (retriever st) chunks with
                | (Upload.ModelError e, after) => (inl (Exception e), after)
                | (Upload.DbError e, after) =>
                    (inl (HTTPException 500 (DbFailed e)), after)
                | (Upload.Ingested, after) =>
                    (inr (List.length chunks, String.length ocr_text), after)
                end
            end
        end
  end.

(** [upload]: the file is saved under [temp_<filename>]; whatever the
    body raises is caught and raised again with status 500; the temporary
    file is removed on every path. *)
Definition upload (st : app) (filename content : string)
  : upload_response * app :=
  let temp_file := "temp_" +:+ filename in
  let saved := <[temp_file := content]> (files st) in
  let '(outcome, (db', retriever')) := upload_body st temp_file content in
  let st' := {| db := db'; retriever := retriever';
                files := delete temp_file saved |} in
  match outcome with
  | inr (chunks, text_length) => (Processed chunks text_length, st')
  | inl e => (Rejected 500 e, st')
  end.

End UploadHandler.
End FastAPI.
(** ** A reference implementation of the [json] interface

    A printer with the layout of [json.dumps(v, indent=2)] and a
    recursive-descent parser, for the values of [json]. In a string the
    quote, the backslash and every character outside the printable ASCII
    range are escaped, so the text written is ASCII; a number is an
    integer in decimal, of at most 4300 digits; the bytes of a file are
    read as UTF-8, for the code points below 256. *)

Module RefJson.
Local Open Scope char_scope.

Definition quote : ascii := "034".
Definition backslash : ascii := "\".
Definition newline : ascii := "010".
Definition tab : ascii := "009".
Definition cr : ascii := "013".
Definition backspace : ascii := "008".
Definition formfeed : ascii := "012".
Definition space : ascii := " ".

Definition chars (s : string) : list ascii := list_ascii_of_string s.

(** *** Strings *)

(** A character that is written as it is: printable ASCII. *)
Definition plain (c : ascii) : bool :=
  Nat.leb 32 (nat_of_ascii c) && Nat.leb (nat_of_ascii c) 126.

Definition hex (n : nat) : ascii :=
  nth n (chars "0123456789abcdef") "0".

Definition hex_value (c : ascii) : option nat :=
  let n := nat_of_ascii c in
  if Nat.leb 48 n && Nat.leb n 57 then Some (n - 48)
  else if Nat.leb 97 n && Nat.leb n 102 then Some (n - 87)
  else if Nat.leb 65 n && Nat.leb n 70 then Some (n - 55)
  else None.

Definition esc (c : ascii) : list ascii :=
  if Ascii.eqb c quote then [backslash; quote]
  else if Ascii.eqb c backslash then [backslash; backslash]
  else if Ascii.eqb c newline then [backslash; "n"]
  else if Ascii.eqb c tab then [backslash; "t"]
  else if Ascii.eqb c cr then [backslash; "r"]
  else if Ascii.eqb c backspace then [backslash; "b"]
  else if Ascii.eqb c formfeed then [backslash; "f"]
  else if plain c then [c]
  else [backslash; "u"; "0"; "0";
        hex (nat_of_ascii c / 16); hex (nat_of_ascii c mod 16)].

Definition unesc (c : ascii) : option ascii :=
  if Ascii.eqb c quote then Some quote
  else if Ascii.eqb c backslash then Some backslash
  else if Ascii.eqb c "/" then Some "/"
  else if Ascii.eqb c "n" then Some newline
  else if Ascii.eqb c "t" then Some tab
  else if Ascii.eqb c "r" then Some cr
  else if Ascii.eqb c "b" then Some backspace
  else if Ascii.eqb c "f" then Some formfeed
  else None.

Definition pr_string (s : string) : list ascii :=
  quote :: flat_map esc (chars s) ++ [quote].

(** The characters up to the closing quote, the opening one being read.
    A control character must be escaped. *)
Fixpoint parse_chars (s : list ascii) : option (list ascii * list ascii) :=
  match s with
  | [] => None
  | c :: r =>
      if Ascii.eqb c quote then Some ([], r)
      else if Ascii.eqb c backslash then
        match r with
        | e :: r' =>
            if Ascii.eqb e "u" then
              match r' with
              | h1 :: h2 :: h3 :: h4 :: r'' =>
                  match hex_value h1, hex_value h2, hex_value h3,
                        hex_value h4, parse_chars r'' with
                  | Some 0, Some 0, Some a, Some b, Some (cs, r3) =>
                      Some (ascii_of_nat (16 * a + b) :: cs, r3)
                  | _, _, _, _, _ => None
                  end
              | _ => None
              end
            else
              match unesc e, parse_chars r' with
              | Some c', Some (cs, r'') => Some (c' :: cs, r'')
              | _, _ => None
              end
        | [] => None
        end
      else if Nat.ltb (nat_of_ascii c) 32 then None
      else match parse_chars r with
           | Some (cs, r') => Some (c :: cs, r')
           | None => None
           end
  end.

(** *** Integers *)

Fixpoint pr_uint (d : Decimal.uint) : list ascii :=
  match d with
  | Decimal.Nil => []
  | Decimal.D0 d => "0" :: pr_uint d
  | Decimal.D1 d => "1" :: pr_uint d
  | Decimal.D2 d => "2" :: pr_uint d
  | Decimal.D3 d => "3" :: pr_uint d
  | Decimal.D4 d => "4" :: pr_uint d
  | Decimal.D5 d => "5" :: pr_uint d
  | Decimal.D6 d => "6" :: pr_uint d
  | Decimal.D7 d => "7" :: pr_uint d
  | Decimal.D8 d => "8" :: pr_uint d
  | Decimal.D9 d => "9" :: pr_uint d
  end.

Definition pr_int (n : Z) : list ascii :=
  match Z.to_int n with
  | Decimal.Pos d => pr_uint d
  | Decimal.Neg d => "-" :: pr_uint d
  end.

Definition digit (c : ascii) : option (Decimal.uint -> Decimal.uint) :=
  if Ascii.eqb c "0" then Some Decimal.D0
  else if Ascii.eqb c "1" then Some Decimal.D1
  else if Ascii.eqb c "2" then Some Decimal.D2
  else if Ascii.eqb c "3" then Some Decimal.D3
  else if Ascii.eqb c "4" then Some Decimal.D4
  else if Ascii.eqb c "5" then Some Decimal.D5
  else if Ascii.eqb c "6" then Some Decimal.D6
  else if Ascii.eqb c "7" then Some Decimal.D7
  else if Ascii.eqb c "8" then Some Decimal.D8
  else if Ascii.eqb c "9" then Some Decimal.D9
  else None.

Definition is_digit (c : ascii) : bool :=
  match digit c with Some _ => true | None => false end.

(** The longest prefix of digits. *)
Fixpoint parse_uint (s : list ascii) : Decimal.uint * list ascii :=
  match s with
  | [] => (Decimal.Nil, [])
  | c :: r =>
      match digit c with
      | Some D => let '(d, r') := parse_uint r in (D d, r')
      | None => (Decimal.Nil, s)
      end
  end.

Definition parse_int (s : list ascii) : option (Z * list ascii) :=
  match s with
  | c :: r =>
      if Ascii.eqb c "-" then
        match parse_uint r with
        | (Decimal.Nil, _) => None
        | (d, r') => Some (Z.of_int (Decimal.Neg d), r')
        end
      else
        match parse_uint s with
        | (Decimal.Nil, _) => None
        | (d, r') => Some (Z.of_int (Decimal.Pos d), r')
        end
  | [] => None
  end.

(** *** Values *)

Definition nl (lvl : nat) : list ascii := newline :: repeat space (2 * lvl).

Section More.
Context {A : Type}.
Variable pr1 : A -> list ascii.
Variable lvl : nat.
Variable close : ascii.

(** The items after the first one, and the closing bracket on a line
    of its own. *)
Fixpoint pr_more (l : list A) : list ascii :=
  match l with
  | [] => nl lvl ++ [close]
  | y :: l' => "," :: nl (S lvl) ++ pr1 y ++ pr_more l'
  end.
End More.

Definition pr_member (pr1 : json -> list ascii) (kv : string * json)
  : list ascii :=
  pr_string kv.1 ++ ":" :: space :: pr1 kv.2.

Fixpoint pr (lvl : nat) (v : json) : list ascii :=
  match v with
  | JNull => chars "null"
  | JBool true => chars "true"
  | JBool false => chars "false"
  | JInt n => pr_int n
  | JStr s => pr_string s
  | JList [] | JTuple [] => chars "[]"
  | JList (x :: l) | JTuple (x :: l) =>
      "[" :: nl (S lvl) ++ pr (S lvl) x ++ pr_more (pr (S lvl)) lvl "]" l
  | JDict [] => chars "{}"
  | JDict (kv :: d) =>
      "{" :: nl (S lvl) ++ pr_member (pr (S lvl)) kv
        ++ pr_more (pr_member (pr (S lvl))) lvl "}" d
  end.

(** Recursion depth the parser needs for a value. *)
Fixpoint fuel_of (v : json) : nat :=
  match v with
  | JList l | JTuple l => S (fold_right (fun x n => S (fuel_of x + n)) 0 l)
  | JDict d => S (fold_right (fun kv n => S (fuel_of kv.2 + n)) 0 d)
  | _ => 1
  end.

Definition is_ws (c : ascii) : bool :=
  Ascii.eqb c space || Ascii.eqb c newline || Ascii.eqb c tab || Ascii.eqb c cr.

Fixpoint skip_ws (s : list ascii) : list ascii :=
  match s with
  | c :: r => if is_ws c then skip_ws r else s
  | [] => []
  end.

(** [s] without the prefix [p], when it has it. *)
Fixpoint after (p s : list ascii) : option (list ascii) :=
  match p, s with
  | [], _ => Some s
  | a :: p', b :: s' => if Ascii.eqb a b then after p' s' else None
  | _ :: _, [] => None
  end.

(** A dict from its pairs in reading order: a repeated key keeps its
    first position and takes the last value. *)
Definition dict_of (kvs : list (string * json)) : list (string * json) :=
  fold_left (fun d kv => Py.setitem d kv.1 kv.2) kvs [].

Fixpoint parse (fuel : nat) (s : list ascii) {struct fuel}
  : option (json * list ascii) :=
  match fuel with
  | 0 => None
  | S fuel' =>
      match skip_ws s with
      | [] => None
      | c :: r =>
          if Ascii.eqb c "n" then
            match after (chars "ull") r with
            | Some r' => Some (JNull, r') | None => None end
          else if Ascii.eqb c "t" then
            match after (chars "rue") r with
            | Some r' => Some (JBool true, r') | None => None end
          else if Ascii.eqb c "f" then
            match after (chars "alse") r with
            | Some r' => Some (JBool false, r') | None => None end
          else if Ascii.eqb c quote then
            match parse_chars r with
            | Some (cs, r') => Some (JStr (string_of_list_ascii cs), r')
            | None => None
            end
          else if Ascii.eqb c "[" then
            match skip_ws r with
            | c' :: r' =>
                if Ascii.eqb c' "]" then Some (JList [], r')
                else match parse_items fuel' (c' :: r') with
                     | Some (l, r'') => Some (JList l, r'')
                     | None => None
                     end
            | [] => None
            end
          else if Ascii.eqb c "{" then
            match skip_ws r with
            | c' :: r' =>
                if Ascii.eqb c' "}" then Some (JDict [], r')
                else match parse_members fuel' (c' :: r') with
                     | Some (d, r'') => Some (JDict (dict_of d), r'')
                     | None => None
                     end
            | [] => None
            end
          else
            match parse_int (c :: r) with
            | Some (n, r') => Some (JInt n, r')
            | None => None
            end
      end
  end
with parse_items (fuel : nat) (s : list ascii) {struct fuel}
  : option (list json * list ascii) :=
  match fuel with
  | 0 => None
  | S fuel' =>
      match parse fuel' s with
      | Some (v, r) =>
          match skip_ws r with
          | c :: r' =>
              if Ascii.eqb c "," then
                match parse_items fuel' r' with
                | Some (l, r'') => Some (v :: l, r'')
                | None => None
                end
              else if Ascii.eqb c "]" then Some ([v], r')
              else None
          | [] => None
          end
      | None => None
      end
  end
with parse_members (fuel : nat) (s : list ascii) {struct fuel}
  : option (list (string * json) * list ascii) :=
  match fuel with
  | 0 => None
  | S fuel' =>
      match skip_ws s with
      | c :: r =>
          if Ascii.eqb c quote then
            match parse_chars r with
            | Some (k, r1) =>
                match skip_ws r1 with
                | c1 :: r2 =>
                    if Ascii.eqb c1 ":" then
                      match parse fuel' r2 with
                      | Some (v, r3) =>
                          let kv := (string_of_list_ascii k, v) in
                          match skip_ws r3 with
                          | c3 :: r4 =>
                              if Ascii.eqb c3 "," then
                                match parse_members fuel' r4 with
                                | Some (d, r5) => Some (kv :: d, r5)
                                | None => None
                                end
                              else if Ascii.eqb c3 "}" then Some ([kv], r4)
                              else None
                          | [] => None
                          end
                      | None => None
                      end
                    else None
                | [] => None
                end
            | None => None
            end
          else None
      | [] => None
      end
  end.

(** The integers that are printed and read: at most 4300 digits. *)
Fixpoint ints_ok (v : json) : bool :=
  match v with
  | JInt n => (Z.abs n <? 10 ^ 4300)%Z
  | JList l | JTuple l => forallb ints_ok l
  | JDict d => forallb (fun kv => ints_ok kv.2) d
  | _ => true
  end.

Definition ref_dumps (v : json) : result string :=
  if ints_ok v then Ok (string_of_list_ascii (pr 0 (as_json v)))
  else Raise ValueError.

Definition ascii7 (c : ascii) : bool := Nat.ltb (nat_of_ascii c) 128.

(** The text of a file of bytes, read as UTF-8: a byte below 128 is a
    character, the bytes 194 and 195 open the two bytes of a code point
    from 128 to 255, any other byte is not text here. *)
Fixpoint decode (bytes : list ascii) : option (list ascii) :=
  match bytes with
  | [] => Some []
  | b :: rest =>
      let n := nat_of_ascii b in
      if Nat.ltb n 128 then
        match decode rest with
        | Some cs => Some (b :: cs)
        | None => None
        end
      else if Nat.eqb n 194 || Nat.eqb n 195 then
        match rest with
        | b2 :: rest' =>
            let m := nat_of_ascii b2 in
            if Nat.leb 128 m && Nat.ltb m 192 then
              match decode rest' with
              | Some cs => Some (ascii_of_nat ((n - 192) * 64 + (m - 128)) :: cs)
              | None => None
              end
            else None
        | [] => None
        end
      else None
  end.

(** The whole text must be one value, possibly followed by white space. *)
Definition ref_loads (s : string) : result json :=
  match decode (chars s) with
  | None => Raise UnicodeDecodeError
  | Some cs =>
      match parse (S (List.length cs)) cs with
      | Some (v, r) =>
          match skip_ws r with
          | [] => if ints_ok v then Ok v else Raise ValueError
          | _ => Raise JSONDecodeError
          end
      | None => Raise JSONDecodeError
      end
  end.

(** What may follow a number: anything but a digit. *)
Definition no_digit (rest : list ascii) : Prop :=
  match rest with c :: _ => is_digit c = false | [] => True end.

(** The first character of a printed value: not white space and not a
    closing bracket. *)
Definition value_start (c : ascii) : Prop :=
  is_ws c = false /\ Ascii.eqb c "]" = false /\ Ascii.eqb c "}" = false.

(** The statement proved for every value by induction. *)
Definition round_trips (v : json) : Prop :=
  forall lvl f rest,
    json_wf v = true -> fuel_of v <= f -> no_digit rest ->
    parse f (pr lvl v ++ rest) = Some (v, rest).

End RefJson.

(** ** A reference implementation of [np.argsort]

    The stable insertion sort of the indexed scores: one of the orders
    the interface allows. *)

Module StableSort.
Section Sort.
Context {A : Type}.
Variable le : A -> A -> bool.

(** Insertion of an indexed score before the first one that is not
    smaller. *)
Fixpoint insert (x : nat * A) (l : list (nat * A)) : list (nat * A) :=
  match l with
  | [] => [x]
  | y :: l' => if le x.2 y.2 then x :: y :: l' else y :: insert x l'
  end.

Definition indexed (scores : list A) : list (nat * A) :=
  zip (seq 0 (List.length scores)) scores.

Definition sorted (scores : list A) : list (nat * A) :=
  foldr insert [] (indexed scores).

Definition argsort (scores : list A) : list nat := map fst (sorted scores).

(** Indexed scores in ascending order of score, and of index among
    equal scores. *)
Definition asc (x y : nat * A) : Prop :=
  le x.2 y.2 = true /\ (le y.2 x.2 = true -> x.1 < y.1).

End Sort.
End StableSort.

(** ** A reference implementation of the [NumPy] interface

    Exact rational arithmetic, the square root rounded down to a multiple
    of [1e-9]; results are kept in lowest terms. A number is written
    with its decimals up to the ninth, without trailing zeros, as [repr]
    writes a float that has no more decimals. *)

Module RefNumPy.
Local Open Scope char_scope.

Definition scale : positive := 1000000000.

Definition qsqrt (x : Q) : Q :=
  Qred (Z.sqrt (Qnum x * Zpos (Qden x) * Zpos scale * Zpos scale)
        # (Qden x * scale)).

Fixpoint drop_zeros (l : list ascii) : list ascii :=
  match l with
  | c :: l' => if Ascii.eqb c "0" then drop_zeros l' else l
  | [] => []
  end.

(** The decimals without the trailing zeros, one at least. *)
Definition decimals (digits : list ascii) : list ascii :=
  match rev (drop_zeros (rev digits)) with
  | [] => ["0"]
  | l => l
  end.

Definition pr_decimal (x : Q) : list ascii :=
  let a := (Z.abs (Qnum x) * Zpos scale / Zpos (Qden x))%Z in
  let frac := RefJson.pr_int (a mod Zpos scale) in
  (if (Qnum x <? 0)%Z then ["-"] else [])
    ++ RefJson.pr_int (a / Zpos scale)
    ++ "." :: decimals (repeat "0" (9 - List.length frac) ++ frac).

Fixpoint join (l : list (list ascii)) : list ascii :=
  match l with
  | [] => []
  | [x] => x
  | x :: l' => x ++ "," :: " " :: join l'
  end.

Definition pr_vector (v : list Q) : string :=
  string_of_list_ascii ("[" :: join (map pr_decimal v) ++ ["]"]).

End RefNumPy.

(** ** A reference environment

    The process runs in [/srv/app]; the directories are this one, its
    ancestors and [/srv/app/chat_history]. *)

Module RefOs.

Definition app_dir : Os.location := ["srv"; "app"].

#[global] Instance ref_world : Os.World := {|
  Os.cwd := app_dir;
  Os.is_dir := fun p => bool_decide (p `prefix_of` app_dir ++ ["chat_history"])
|}.

End RefOs.

(** ** Vocabulary of the properties *)

Module ChatHistorySpec.
Import ChatHistory.

(** One call of [add_message]: what the environment generates and what
    the caller supplies. *)
Record call : Type := {
  c_uid : string;
  c_now : string;
  c_role : string;
  c_content : string;
  c_document_context : option (list (string * json));
  c_metadata : option (list (string * json))
}.

(** An optional dict argument is a JSON object: no repeated key, no
    tuple. *)
Definition arg_wf (o : option (list (string * json))) : bool :=
  match o with Some d => json_wf (JDict d) | None => true end.




(** A message nested at most 30 deep, with integers of at most 640
    digits: a record of such messages is always printed. *)
Definition message_small (m : json) : bool := json_small_upto 30 m.

(** A session id that is one name: its file is in the storage
    directory. *)
Definition plain_id (session_id : string) : bool := Os.no_slash session_id.



(** The record of a session, as [add_message] writes it. *)
Definition record (msgs : list json) : json := JDict [("messages", JList msgs)].






Section Runs.
Context `{JsonCodec} `{Os.World}.
Variable self : t.

(** Serialized calls of [add_message] on one session: the returned
    values and the final files. *)
Fixpoint add_messages (fs : files) (session_id : string) (calls : list call)
  : list (result json) * files :=
  match calls with
  | [] => ([], fs)
  | c :: calls' =>
      let '(r, fs1) :=
        add_message self fs (c_uid c) (c_now c) session_id (c_role c)
          (c_content c) (c_document_context c) (c_metadata c) in
      let '(rs, fs2) := add_messages fs1 session_id calls' in
      (r :: rs, fs2)
  end.



(** Where the storage directory is. *)
Definition storage_location : Os.location :=
  match Os.descend (Os.Files ∅) (Os.start (storage_dir self))
          (Os.components (storage_dir self)) with
  | Ok d => d
  | Raise _ => []
  end.

(** Two paths that name one file. *)
Definition same_file (fs : files) (p q : string) : Prop :=
  exists k, Os.locate fs p = Ok k /\ Os.locate fs q = Ok k.

End Runs.
End ChatHistorySpec.

Module RetrieverSpec.
Section Order.
Context `{NumPy}.

(** The order [<=] of the scores is total (no NaN). *)
Definition leb_total : Prop := forall x y, leb x y = true \/ leb y x = true.

(** The cosine similarity of one row, as the design document writes it. *)
Definition cosine (row q : Np.vector) : num :=
  div (Np.vdot row q) (add (mul (Np.vnorm row) (Np.vnorm q)) eps).

(** [i] comes before [j] in ascending order of score. *)
Definition below (scores : list num) (i j : nat) : Prop :=
  forall si sj, scores !! i = Some si -> scores !! j = Some sj ->
                leb si sj = true.

(** What the scorer owes for [k >= 1]: the scores are the cosine
    similarities of the rows; the result lists the documents and
    scores of [min(k, N)] distinct chunks [top], in descending order
    of score, and no chunk outside [top] scores more than one in it. *)
Definition ranks_top_k (self : DocumentRetriever.SimpleRetriever.t)
    (q : Np.vector) (k : Z) : Prop :=
  let E := DocumentRetriever.SimpleRetriever.embeddings self in
  exists scores top results result_scores,
    DocumentRetriever.SimpleRetriever.cosine_scores E q = Ok scores
    /\ (forall i row, E !! i = Some row -> scores !! i = Some (cosine row q))
    /\ top = DocumentRetriever.SimpleRetriever.top_indices scores k
    /\ DocumentRetriever.SimpleRetriever.retrieve self q k = (results, result_scores)
    /\ List.length top = Nat.min (Z.to_nat k) (List.length E)
    /\ List.length results = List.length top
    /\ List.length result_scores = List.length top
    /\ NoDup top
    /\ (forall a i, top !! a = Some i ->
           i < List.length E
           /\ results !! a = DocumentRetriever.SimpleRetriever.documents self !! i
           /\ result_scores !! a = scores !! i)
    /\ (forall a b sa sb, a < b ->
           result_scores !! a = Some sa -> result_scores !! b = Some sb ->
           leb sb sa = true)
    /\ (forall j sj s, scores !! j = Some sj -> j ∉ top ->
           s ∈ result_scores -> leb sj s = true).
End Order.
End RetrieverSpec.

(** ** Vocabulary of the further properties *)

Module MoreSpec.

(** A value that is not a list. *)
Definition not_a_list (v : json) : Prop :=
  match v with JList _ => False | _ => True end.





(** A text that does not begin with white space. *)
Definition starts_clean (l : list ascii) : Prop :=
  match l with
  | c :: _ => DocumentRetriever.is_space c = false
  | [] => True
  end.

(** A content block of a model response, seen as its type and its text:
    a dict whose ["type"] is the string [b.1] and, when that is ["text"],
    whose ["text"] is the string [b.2]. *)
Definition is_block (item : json) (b : string * string) : Prop :=
  exists d, item = JDict d
            /\ Py.lookup d "type" = Some (JStr b.1)
            /\ (b.1 = "text" -> Py.lookup d "text" = Some (JStr b.2)).

End MoreSpec.
(** * The reference implementations are lawful *)

(** ** Tuples are written as lists *)

(** A JSON value is written as it is. *)
Lemma as_json_wf v : json_wf v = true -> as_json v = v.
Proof.
  induction v as [|b|n|s|l IH|d IH|l IH] using json_ind; try reflexivity;
    [| |discriminate].
  - cbn [json_wf as_json]. intros Hwf. f_equal.
    induction IH as [|x l Hx _ IHl]; [reflexivity|].
    cbn [forallb] in Hwf. apply andb_true_iff in Hwf as [Hwx Hwf].
    cbn [map]. by rewrite Hx, IHl.
  - cbn [json_wf as_json]. intros Hwf.
    apply andb_true_iff in Hwf as [_ Hwf]. f_equal.
    induction IH as [|[k x] d Hx _ IHd]; [reflexivity|].
    cbn [forallb snd] in Hwf. apply andb_true_iff in Hwf as [Hwx Hwf].
    cbn [map fst snd] in *. by rewrite Hx, IHd.
Qed.

Lemma as_json_idemp v : as_json (as_json v) = as_json v.
Proof.
  assert (forall l, Forall (fun v => as_json (as_json v) = as_json v) l ->
                    map as_json (map as_json l) = map as_json l) as Hlist.
  { induction 1 as [|x l Hx _ IH]; [reflexivity|]. cbn [map]. by rewrite Hx, IH. }
  induction v as [|b|n|s|l IH|d IH|l IH] using json_ind; try reflexivity;
    cbn [as_json]; f_equal; [by apply Hlist| |by apply Hlist].
  induction IH as [|[k x] d Hx _ IHd]; [reflexivity|].
  cbn [map fst snd] in *. by rewrite Hx, IHd.
Qed.

(** ** The reference codec round-trips *)

Module RefJsonFacts.
Import RefJson.
Local Open Scope char_scope.

Lemma parse_chars_esc1 c rest :
  parse_chars (esc c ++ rest)
  = match parse_chars rest with
    | Some (cs, r) => Some (c :: cs, r)
    | None => None
    end.
Proof.
  destruct c as [[] [] [] [] [] [] [] []];
    match goal with
    | |- context [esc ?c] =>
        let e := eval vm_compute in (esc c) in change (esc c) with e
    end;
    cbn [app parse_chars]; generalize (parse_chars rest); intros p;
    vm_compute; by destruct p as [[cs r]|].
Qed.

Lemma parse_chars_esc cs rest :
  parse_chars (flat_map esc cs ++ quote :: rest) = Some (cs, rest).
Proof.
  induction cs as [|c cs IH]; [reflexivity|].
  cbn [flat_map]. rewrite <- app_assoc, parse_chars_esc1. by rewrite IH.
Qed.

Lemma parse_uint_pr d rest :
  no_digit rest -> parse_uint (pr_uint d ++ rest) = (d, rest).
Proof.
  intros Hr. induction d; cbn; try (by rewrite IHd).
  destruct rest as [|c r]; [reflexivity|].
  cbn in *. unfold is_digit in Hr. by destruct (digit c).
Qed.

Lemma skip_ws_nl lvl s : skip_ws (nl lvl ++ s) = skip_ws s.
Proof.
  unfold nl. cbn [app skip_ws]. change (is_ws newline) with true. cbv iota.
  induction (2 * lvl)%nat as [|n IH]; [reflexivity|].
  cbn [repeat app skip_ws]. change (is_ws space) with true. by cbv iota.
Qed.

Lemma digit_cases c :
  is_digit c = true ->
  c = "0" \/ c = "1" \/ c = "2" \/ c = "3" \/ c = "4" \/ c = "5"
  \/ c = "6" \/ c = "7" \/ c = "8" \/ c = "9".
Proof.
  unfold is_digit, digit.
  repeat (match goal with |- context [ Ascii.eqb c ?d ] =>
            destruct (Ascii.eqb_spec c d) as [->|_]; [tauto|] end).
  discriminate.
Qed.

Lemma pr_uint_head d :
  d <> Decimal.Nil -> exists c r, pr_uint d = c :: r /\ is_digit c = true.
Proof. destruct d; [congruence|..]; intros _; cbn; eauto. Qed.

Lemma to_int_nonnil n :
  match Z.to_int n with Decimal.Pos d | Decimal.Neg d => d <> Decimal.Nil end.
Proof.
  destruct n; cbn; (discriminate || apply DecimalPos.Unsigned.to_uint_nonnil).
Qed.

Lemma digit_not_minus c : is_digit c = true -> Ascii.eqb c "-" = false.
Proof.
  intros Hc. apply digit_cases in Hc.
  repeat (destruct Hc as [->|Hc]; [reflexivity|]). by subst.
Qed.

Lemma parse_int_pr n rest :
  no_digit rest -> parse_int (pr_int n ++ rest) = Some (n, rest).
Proof.
  intros Hr. unfold pr_int.
  pose proof (DecimalZ.of_to n) as Hn. pose proof (to_int_nonnil n) as Hd.
  destruct (Z.to_int n) as [d|d].
  - destruct (pr_uint_head d Hd) as (c & r & E & Hc).
    unfold parse_int. rewrite E. cbn [app].
    rewrite (digit_not_minus c Hc).
    change (c :: r ++ rest) with ((c :: r) ++ rest).
    rewrite <- E, parse_uint_pr by done.
    destruct d; by rewrite ?Hn.
  - cbn [app parse_int]. change (Ascii.eqb "-" "-") with true. cbv iota.
    rewrite parse_uint_pr by done.
    destruct d; by rewrite ?Hn.
Qed.

Lemma pr_int_head n :
  exists c r, pr_int n = c :: r /\ (c = "-" \/ is_digit c = true).
Proof.
  unfold pr_int. pose proof (to_int_nonnil n) as Hn.
  destruct (Z.to_int n) as [d|d].
  - destruct (pr_uint_head d Hn) as (c & r & -> & Hc). eauto.
  - eauto.
Qed.

Lemma pr_head lvl v :
  exists c r, pr lvl v = c :: r /\ value_start c.
Proof.
  destruct v as [|[]|n|s|[|x l]|[|kv d]|[|x l]];
    try (eexists _, _; split; [reflexivity|by repeat split]).
  destruct (pr_int_head n) as (c & r & E & Hc).
  exists c, r. split; [exact E|].
  destruct Hc as [->|Hc]; [by repeat split|].
  apply digit_cases in Hc.
  repeat (destruct Hc as [->|Hc]; [by repeat split|]).
  subst. by repeat split.
Qed.

Lemma skip_ws_start c r : is_ws c = false -> skip_ws (c :: r) = c :: r.
Proof. intros Hc. cbn. by rewrite Hc. Qed.

Lemma setitem_fresh d k v :
  k ∉ map fst d -> Py.setitem d k v = d ++ [(k, v)].
Proof.
  induction d as [|[k' v'] d IH]; [reflexivity|].
  cbn. intros Hk. rewrite not_elem_of_cons in Hk. destruct Hk as [Hne Hk].
  destruct (String.eqb_spec k' k) as [->|_]; [done|]. by rewrite IH.
Qed.

Lemma dict_of_acc kvs acc :
  NoDup (map fst (acc ++ kvs)) ->
  fold_left (fun d kv => Py.setitem d kv.1 kv.2) kvs acc = acc ++ kvs.
Proof.
  revert acc. induction kvs as [|[k v] kvs IH]; intros acc Hnd.
  - by rewrite app_nil_r.
  - cbn [fold_left fst snd].
    rewrite setitem_fresh.
    + rewrite IH; rewrite <- app_assoc; [reflexivity|exact Hnd].
    + rewrite map_app in Hnd. apply NoDup_app in Hnd as (_ & Hd & _).
      intros Hin. apply (Hd k Hin). cbn. left.
Qed.

Lemma dict_of_id d : NoDup (map fst d) -> dict_of d = d.
Proof. intros Hnd. unfold dict_of. by rewrite dict_of_acc. Qed.

Lemma parse_nl f lvl s : parse f (nl lvl ++ s) = parse f s.
Proof. destruct f; [reflexivity|]. cbn [parse]. by rewrite skip_ws_nl. Qed.

Lemma parse_items_nl f lvl s : parse_items f (nl lvl ++ s) = parse_items f s.
Proof. destruct f; [reflexivity|]. cbn [parse_items]. by rewrite parse_nl. Qed.

Lemma parse_members_nl f lvl s :
  parse_members f (nl lvl ++ s) = parse_members f s.
Proof. destruct f; [reflexivity|]. cbn [parse_members]. by rewrite skip_ws_nl. Qed.

Lemma no_digit_more {A} (pr1 : A -> list ascii) lvl close l rest :
  no_digit (pr_more pr1 lvl close l ++ rest).
Proof. by destruct l. Qed.

Lemma parse_items_pr lvl l : forall x f rest,
  Forall round_trips (x :: l) ->
  forallb json_wf (x :: l) = true ->
  fold_right (fun x n => S (fuel_of x + n)) 0 (x :: l) <= f ->
  parse_items f (pr (S lvl) x ++ pr_more (pr (S lvl)) lvl "]" l ++ rest)
  = Some (x :: l, rest).
Proof.
  induction l as [|y l IH]; intros x f rest HP Hwf Hf.
  - apply Forall_cons in HP as [Hx _].
    cbn in Hwf, Hf. rewrite andb_true_r in Hwf.
    destruct f as [|f]; [lia|]. cbn [parse_items].
    rewrite Hx; [|done|lia|apply no_digit_more].
    cbn [pr_more]. rewrite <- app_assoc, skip_ws_nl. reflexivity.
  - apply Forall_cons in HP as [Hx HP].
    cbn [forallb] in Hwf. apply andb_true_iff in Hwf as [Hwx Hwf].
    cbn [fold_right] in Hf.
    destruct f as [|f]; [lia|]. cbn [parse_items].
    rewrite Hx; [|done|lia|apply no_digit_more].
    cbn [pr_more app skip_ws]. change (is_ws ",") with false. cbv iota.
    change (Ascii.eqb "," ",") with true. cbv iota.
    rewrite <- !app_assoc, parse_items_nl.
    rewrite IH; [reflexivity|done|done|cbn [fold_right]; lia].
Qed.

Lemma parse_members_pr lvl d : forall kv f rest,
  Forall (fun kv => round_trips kv.2) (kv :: d) ->
  forallb (fun kv => json_wf kv.2) (kv :: d) = true ->
  fold_right (fun kv n => S (fuel_of kv.2 + n)) 0 (kv :: d) <= f ->
  parse_members f (pr_member (pr (S lvl)) kv
                     ++ pr_more (pr_member (pr (S lvl))) lvl "}" d ++ rest)
  = Some (kv :: d, rest).
Proof.
  induction d as [|kv' d IH]; intros [k x] f rest HP Hwf Hf.
  - apply Forall_cons in HP as [Hx _]. cbn [snd] in Hx.
    cbn in Hwf, Hf. rewrite andb_true_r in Hwf.
    destruct f as [|f]; [lia|]. cbn [parse_members].
    unfold pr_member, pr_string. cbn [fst snd app skip_ws].
    change (is_ws quote) with false. cbv iota.
    rewrite Ascii.eqb_refl. rewrite <- !app_assoc. cbn [app].
    rewrite parse_chars_esc. cbn [skip_ws].
    change (is_ws ":") with false. cbv iota.
    change (Ascii.eqb ":" ":") with true. cbv iota.
    assert (forall s, parse f (space :: s) = parse f s) as Hsp.
    { intros s. destruct f; [reflexivity|]. cbn [parse skip_ws].
      by change (is_ws space) with true. }
    rewrite Hsp, Hx; [|done|lia|apply no_digit_more].
    cbn [pr_more]. rewrite <- app_assoc, skip_ws_nl.
    cbn [app skip_ws]. change (is_ws "}") with false. cbv iota.
    change (Ascii.eqb "}" ",") with false. change (Ascii.eqb "}" "}") with true.
    cbv iota. unfold chars. by rewrite string_of_list_ascii_of_string.
  - apply Forall_cons in HP as [Hx HP]. cbn [snd] in Hx.
    cbn [forallb snd] in Hwf. apply andb_true_iff in Hwf as [Hwx Hwf].
    cbn [fold_right snd] in Hf.
    destruct f as [|f]; [lia|]. cbn [parse_members].
    unfold pr_member at 1, pr_string. cbn [fst snd app skip_ws].
    change (is_ws quote) with false. cbv iota.
    rewrite Ascii.eqb_refl. rewrite <- !app_assoc. cbn [app].
    rewrite parse_chars_esc. cbn [skip_ws].
    change (is_ws ":") with false. cbv iota.
    change (Ascii.eqb ":" ":") with true. cbv iota.
    assert (forall s, parse f (space :: s) = parse f s) as Hsp.
    { intros s. destruct f; [reflexivity|]. cbn [parse skip_ws].
      by change (is_ws space) with true. }
    rewrite Hsp, Hx; [|done|lia|apply no_digit_more].
    cbn [pr_more app skip_ws]. change (is_ws ",") with false. cbv iota.
    change (Ascii.eqb "," ",") with true. cbv iota.
    rewrite <- !app_assoc, parse_members_nl.
    rewrite IH; [|done|done|cbn [fold_right]; lia].
    unfold chars. by rewrite string_of_list_ascii_of_string.
Qed.

Lemma parse_pr v : round_trips v.
Proof.
  induction v as [|b|n|s|l IH|d IH|l IH] using json_ind;
    intros lvl f rest Hwf Hf Hrest; [..|discriminate];
    (destruct f as [|f]; [cbn in Hf; lia|]).
  - reflexivity.
  - by destruct b.
  - destruct (pr_head lvl (JInt n)) as (c & r & E & Hws & Hc1 & Hc2).
    cbn [parse pr] in *. rewrite E. cbn [app]. rewrite skip_ws_start by done.
    destruct (pr_int_head n) as (c' & r' & E' & Hc).
    rewrite E in E'. injection E' as <- <-.
    assert (Ascii.eqb c "n" = false /\ Ascii.eqb c "t" = false
            /\ Ascii.eqb c "f" = false /\ Ascii.eqb c quote = false
            /\ Ascii.eqb c "[" = false /\ Ascii.eqb c "{" = false)
      as (-> & -> & -> & -> & -> & ->).
    { destruct Hc as [->|Hc]; [by repeat split|].
      apply digit_cases in Hc.
      repeat (destruct Hc as [->|Hc]; [by repeat split|]).
      subst. by repeat split. }
    change (c :: r ++ rest) with ((c :: r) ++ rest).
    rewrite <- E, parse_int_pr by done. reflexivity.
  - cbn [parse pr]. unfold pr_string. cbn [app skip_ws].
    change (is_ws quote) with false. cbv iota.
    change (Ascii.eqb quote "n") with false.
    change (Ascii.eqb quote "t") with false.
    change (Ascii.eqb quote "f") with false.
    rewrite Ascii.eqb_refl. cbv iota.
    rewrite <- app_assoc. cbn [app]. rewrite parse_chars_esc.
    unfold chars. by rewrite string_of_list_ascii_of_string.
  - destruct l as [|x l]; [reflexivity|].
    cbn [json_wf] in Hwf. cbn [fuel_of] in Hf.
    cbn [parse pr app skip_ws]. change (is_ws "[") with false. cbv iota.
    change (Ascii.eqb "[" "n") with false.
    change (Ascii.eqb "[" "t") with false.
    change (Ascii.eqb "[" "f") with false.
    change (Ascii.eqb "[" quote) with false.
    change (Ascii.eqb "[" "[") with true. cbv iota.
    rewrite <- !app_assoc, skip_ws_nl.
    destruct (pr_head (S lvl) x) as (c & r & E & Hws & Hc1 & Hc2).
    rewrite E. cbn [app]. rewrite skip_ws_start, Hc1 by done.
    change (c :: r ++ ?t) with ((c :: r) ++ t). rewrite <- E.
    rewrite parse_items_pr; [reflexivity|done|done|lia].
  - destruct d as [|kv d]; [reflexivity|].
    cbn [json_wf] in Hwf. apply andb_true_iff in Hwf as [Hnd Hwf].
    apply bool_decide_eq_true in Hnd. cbn [fuel_of] in Hf.
    cbn [parse pr app skip_ws]. change (is_ws "{") with false. cbv iota.
    change (Ascii.eqb "{" "n") with false.
    change (Ascii.eqb "{" "t") with false.
    change (Ascii.eqb "{" "f") with false.
    change (Ascii.eqb "{" quote) with false.
    change (Ascii.eqb "{" "[") with false.
    change (Ascii.eqb "{" "{") with true. cbv iota.
    rewrite <- !app_assoc, skip_ws_nl.
    assert (exists r, pr_member (pr (S lvl)) kv = quote :: r) as [r E].
    { unfold pr_member, pr_string. cbn [app]. eauto. }
    rewrite E. cbn [app skip_ws]. change (is_ws quote) with false. cbv iota.
    change (Ascii.eqb quote "}") with false. cbv iota.
    change (quote :: r ++ ?t) with ((quote :: r) ++ t). rewrite <- E.
    rewrite parse_members_pr; [|done|done|lia].
    by rewrite dict_of_id.
Qed.

Lemma length_more {A} (pr1 : A -> list ascii) (g : A -> nat) lvl close l :
  Forall (fun x => g x <= List.length (pr1 x)) l ->
  fold_right (fun x n => S (g x + n)) 0 l
  < List.length (pr_more pr1 lvl close l).
Proof.
  induction 1 as [|x l Hx _ IH]; cbn [fold_right pr_more].
  - rewrite length_app. cbn. lia.
  - cbn [List.length]. rewrite !length_app. lia.
Qed.

Lemma fuel_of_length v : forall lvl, fuel_of v <= List.length (pr lvl v).
Proof.
  assert (forall l lvl,
             Forall (fun v => forall lvl, fuel_of v <= List.length (pr lvl v)) l ->
             S (fold_right (fun x n => S (fuel_of x + n)) 0 l)
             <= List.length (pr lvl (JList l))) as Hlist.
  { intros l lvl IH. destruct l as [|x l]; [cbn; lia|].
    apply Forall_cons in IH as [Hx IH].
    cbn [pr fold_right List.length]. rewrite !length_app.
    pose proof (length_more (pr (S lvl)) fuel_of lvl "]" l) as Hl.
    specialize (Hx (S lvl)).
    assert (Forall (fun x => fuel_of x <= List.length (pr (S lvl) x)) l) as Hall.
    { eapply Forall_impl; [exact IH|]. intros y Hy. apply Hy. }
    specialize (Hl Hall). lia. }
  induction v as [|b|n|s|l IH|d IH|l IH] using json_ind; intros lvl;
    [..|destruct l; apply (Hlist _ lvl IH)].
  - cbn. lia.
  - destruct b; cbn; lia.
  - destruct (pr_int_head n) as (c & r & E & _). cbn [pr fuel_of].
    rewrite E. cbn. lia.
  - cbn. lia.
  - destruct l as [|x l]; [cbn; lia|].
    apply Forall_cons in IH as [Hx IH].
    cbn [pr fuel_of fold_right List.length]. rewrite !length_app.
    pose proof (length_more (pr (S lvl)) fuel_of lvl "]" l) as Hl.
    specialize (Hx (S lvl)).
    assert (Forall (fun x => fuel_of x <= List.length (pr (S lvl) x)) l) as Hall.
    { eapply Forall_impl; [exact IH|]. intros y Hy. apply Hy. }
    specialize (Hl Hall). lia.
  - destruct d as [|kv d]; [cbn; lia|].
    apply Forall_cons in IH as [Hx IH].
    cbn [pr fuel_of fold_right List.length]. rewrite !length_app.
    pose proof (length_more (pr_member (pr (S lvl)))
                  (fun kv => fuel_of kv.2) lvl "}" d) as Hl.
    assert (forall kv : string * json,
               (forall lvl, fuel_of kv.2 <= List.length (pr lvl kv.2)) ->
               fuel_of kv.2 <= List.length (pr_member (pr (S lvl)) kv)) as Hm.
    { intros kv' Hkv. unfold pr_member. rewrite length_app. cbn [List.length].
      specialize (Hkv (S lvl)). lia. }
    assert (Forall (fun kv => fuel_of kv.2
                              <= List.length (pr_member (pr (S lvl)) kv)) d) as Hall.
    { eapply Forall_impl; [exact IH|]. intros y Hy. by apply Hm. }
    specialize (Hl Hall).
    specialize (Hm kv Hx). cbn beta in Hl. lia.
Qed.

(** The printer writes ASCII, which reads as itself. *)

Lemma esc_ascii7 c : forallb ascii7 (esc c) = true.
Proof. by destruct c as [[] [] [] [] [] [] [] []]. Qed.

Lemma forallb_app_true {A} (f : A -> bool) l1 l2 :
  forallb f l1 = true -> forallb f l2 = true -> forallb f (l1 ++ l2) = true.
Proof. intros H1 H2. by rewrite forallb_app, H1, H2. Qed.

Lemma pr_string_ascii7 s : forallb ascii7 (pr_string s) = true.
Proof.
  unfold pr_string. cbn [forallb]. apply forallb_app_true; [|reflexivity].
  induction (chars s) as [|c cs IH]; [reflexivity|].
  cbn [flat_map]. apply forallb_app_true; [apply esc_ascii7|exact IH].
Qed.

Lemma pr_int_ascii7 n : forallb ascii7 (pr_int n) = true.
Proof.
  assert (forall d, forallb ascii7 (pr_uint d) = true) as Hd.
  { induction d; cbn [pr_uint forallb]; by rewrite ?IHd. }
  unfold pr_int. destruct (Z.to_int n); cbn [forallb]; by rewrite Hd.
Qed.

Lemma nl_ascii7 lvl : forallb ascii7 (nl lvl) = true.
Proof.
  unfold nl. cbn [forallb]. change (ascii7 newline) with true. cbn [andb].
  induction (2 * lvl) as [|n IH]; [reflexivity|]. cbn [repeat forallb]. exact IH.
Qed.

Lemma pr_more_ascii7 {A} (pr1 : A -> list ascii) lvl close l :
  ascii7 close = true ->
  Forall (fun x => forallb ascii7 (pr1 x) = true) l ->
  forallb ascii7 (pr_more pr1 lvl close l) = true.
Proof.
  intros Hc. induction 1 as [|x l Hx _ IH]; cbn [pr_more].
  - apply forallb_app_true; [apply nl_ascii7|]. cbn [forallb]. by rewrite Hc.
  - cbn [forallb]. change (ascii7 ",") with true. cbn [andb].
    apply forallb_app_true; [apply nl_ascii7|].
    by apply forallb_app_true.
Qed.

Lemma pr_ascii7 v : forall lvl, forallb ascii7 (pr lvl v) = true.
Proof.
  assert (forall l lvl,
             Forall (fun v => forall lvl, forallb ascii7 (pr lvl v) = true) l ->
             forallb ascii7 (pr lvl (JList l)) = true) as Hlist.
  { intros l lvl IH. destruct l as [|x l]; [reflexivity|].
    apply Forall_cons in IH as [Hx IH].
    cbn [pr forallb]. change (ascii7 "[") with true. cbn [andb].
    apply forallb_app_true; [apply nl_ascii7|].
    apply forallb_app_true; [apply Hx|].
    apply pr_more_ascii7; [reflexivity|].
    eapply Forall_impl; [exact IH|]. intros y Hy. apply Hy. }
  induction v as [|b|n|s|l IH|d IH|l IH] using json_ind; intros lvl;
    [..|destruct l; apply (Hlist _ lvl IH)].
  - reflexivity.
  - by destruct b.
  - apply pr_int_ascii7.
  - apply pr_string_ascii7.
  - by apply Hlist.
  - destruct d as [|kv d]; [reflexivity|].
    apply Forall_cons in IH as [Hx IH].
    assert (forall kv : string * json,
               (forall lvl, forallb ascii7 (pr lvl kv.2) = true) ->
               forallb ascii7 (pr_member (pr (S lvl)) kv) = true) as Hm.
    { intros kv' Hkv. unfold pr_member.
      apply forallb_app_true; [apply pr_string_ascii7|].
      cbn [forallb]. change (ascii7 ":") with true. change (ascii7 space) with true.
      cbn [andb]. apply Hkv. }
    cbn [pr forallb]. change (ascii7 "{") with true. cbn [andb].
    apply forallb_app_true; [apply nl_ascii7|].
    apply forallb_app_true; [by apply Hm|].
    apply pr_more_ascii7; [reflexivity|].
    eapply Forall_impl; [exact IH|]. intros y Hy. by apply Hm.
Qed.

Lemma decode_ascii7 l : forallb ascii7 l = true -> decode l = Some l.
Proof.
  induction l as [|c l IH]; [reflexivity|].
  cbn [forallb decode]. intros Hl. apply andb_true_iff in Hl as [Hc Hl].
  unfold ascii7 in Hc. rewrite Hc. by rewrite IH.
Qed.

Lemma ints_ok_as_json v : ints_ok (as_json v) = ints_ok v.
Proof.
  assert (forall l, Forall (fun v => ints_ok (as_json v) = ints_ok v) l ->
                    forallb ints_ok (map as_json l) = forallb ints_ok l) as Hlist.
  { induction 1 as [|x l Hx _ IH]; [reflexivity|].
    cbn [map forallb]. by rewrite Hx, IH. }
  induction v as [|b|n|s|l IH|d IH|l IH] using json_ind; try reflexivity;
    cbn [as_json ints_ok]; [by apply Hlist| |by apply Hlist].
  induction IH as [|[k x] d Hx _ IHd]; [reflexivity|].
  cbn [map forallb fst snd] in *. by rewrite Hx, IHd.
Qed.

Lemma small_ints_ok v : forall depth,
  json_small_upto depth v = true -> ints_ok v = true.
Proof.
  assert (forall l depth,
             Forall (fun v => forall depth,
                       json_small_upto depth v = true -> ints_ok v = true) l ->
             forallb (json_small_upto depth) l = true ->
             forallb ints_ok l = true) as Hlist.
  { intros l depth IH. induction IH as [|x l Hx _ IHl]; [reflexivity|].
    cbn [forallb]. intros Hs. apply andb_true_iff in Hs as [Hsx Hs].
    by rewrite (Hx _ Hsx), IHl. }
  induction v as [|b|n|s|l IH|d IH|l IH] using json_ind; intros depth;
    try reflexivity.
  - cbn [json_small_upto ints_ok]. intros Hn.
    apply Z.ltb_lt in Hn. apply Z.ltb_lt.
    eapply Z.lt_le_trans; [exact Hn|].
    apply Z.pow_le_mono_r; lia.
  - destruct depth as [|depth]; [discriminate|]. by apply Hlist.
  - destruct depth as [|depth]; [discriminate|].
    cbn [json_small_upto ints_ok].
    induction IH as [|[k x] d Hx _ IHd]; [reflexivity|].
    cbn [forallb snd] in *. intros Hs. apply andb_true_iff in Hs as [Hsx Hs].
    by rewrite (Hx _ Hsx), IHd.
  - destruct depth as [|depth]; [discriminate|]. by apply Hlist.
Qed.

Theorem ref_dumps_tuple v : ref_dumps v = ref_dumps (as_json v).
Proof. unfold ref_dumps. by rewrite ints_ok_as_json, as_json_idemp. Qed.

Theorem ref_dumps_small v :
  json_small v = true -> exists s, ref_dumps v = Ok s.
Proof.
  intros Hs. unfold ref_dumps. rewrite (small_ints_ok _ _ Hs). eauto.
Qed.

Theorem ref_loads_dumps v s :
  json_wf v = true -> ref_dumps v = Ok s -> ref_loads s = Ok v.
Proof.
  intros Hwf. unfold ref_dumps.
  destruct (ints_ok v) eqn:Hi; [|discriminate]. intros [= <-].
  rewrite (as_json_wf v Hwf). unfold ref_loads, chars.
  rewrite list_ascii_of_string_of_list_ascii.
  rewrite (decode_ascii7 _ (pr_ascii7 v 0)).
  pose proof (parse_pr v 0 (S (List.length (pr 0 v))) [] Hwf) as Hp.
  rewrite app_nil_r in Hp. rewrite Hp; [by rewrite Hi| |exact I].
  pose proof (fuel_of_length v 0). lia.
Qed.

(** What the parser returns is well formed. *)

Lemma setitem_keys d k v :
  map fst (Py.setitem d k v)
  = if bool_decide (k ∈ map fst d) then map fst d else map fst d ++ [k].
Proof.
  induction d as [|[k' v'] d IH]; [reflexivity|].
  cbn [Py.setitem map fst].
  destruct (String.eqb_spec k' k) as [->|Hne].
  - rewrite bool_decide_eq_true_2 by left. reflexivity.
  - cbn [map fst]. rewrite IH.
    destruct (bool_decide (k ∈ map fst d)) eqn:E.
    + apply bool_decide_eq_true in E.
      rewrite bool_decide_eq_true_2 by (by right). reflexivity.
    + apply bool_decide_eq_false in E.
      rewrite bool_decide_eq_false_2; [reflexivity|].
      rewrite elem_of_cons. intros [?|?]; congruence.
Qed.

Lemma setitem_NoDup d k v :
  NoDup (map fst d) -> NoDup (map fst (Py.setitem d k v)).
Proof.
  intros Hnd. rewrite setitem_keys. case_bool_decide as Hk; [done|].
  apply NoDup_app. split_and!; [done| |apply NoDup_singleton].
  intros x Hx Hx'. apply list_elem_of_singleton in Hx'. by subst.
Qed.

Lemma setitem_values d k v :
  forallb (fun kv => json_wf kv.2) d = true -> json_wf v = true ->
  forallb (fun kv => json_wf kv.2) (Py.setitem d k v) = true.
Proof.
  intros Hd Hv. induction d as [|[k' v'] d IH]; cbn in *.
  - by rewrite Hv.
  - apply andb_true_iff in Hd as [H1 H2].
    destruct (String.eqb k' k); cbn; [by rewrite Hv|].
    by rewrite H1, IH.
Qed.

Lemma dict_of_wf kvs :
  forallb (fun kv => json_wf kv.2) kvs = true ->
  json_wf (JDict (dict_of kvs)) = true.
Proof.
  unfold dict_of.
  assert (json_wf (JDict []) = true) as Hacc by reflexivity.
  revert Hacc. generalize (@nil (string * json)) as acc.
  induction kvs as [|[k v] kvs IH]; intros acc Hacc Hk; [exact Hacc|].
  cbn [forallb snd] in Hk. apply andb_true_iff in Hk as [Hv Hk].
  cbn [fold_left fst snd]. apply IH; [|exact Hk].
  cbn [json_wf] in *. apply andb_true_iff in Hacc as [Hnd Hvals].
  apply bool_decide_eq_true in Hnd.
  apply andb_true_iff. split.
  - apply bool_decide_eq_true. by apply setitem_NoDup.
  - by apply setitem_values.
Qed.

Lemma parse_wf f :
  (forall s v r, parse f s = Some (v, r) -> json_wf v = true)
  /\ (forall s l r, parse_items f s = Some (l, r) -> forallb json_wf l = true)
  /\ (forall s d r, parse_members f s = Some (d, r) ->
        forallb (fun kv => json_wf kv.2) d = true).
Proof.
  induction f as [|f (IHv & IHl & IHd)]; [by repeat split|].
  split_and!.
  - intros s v r. cbn [parse]. intros Hp.
    repeat case_match; simplify_eq; try reflexivity.
    + cbn [json_wf]. eauto.
    + apply dict_of_wf. eauto.
  - intros s l r. cbn [parse_items]. intros Hp.
    repeat case_match; simplify_eq; cbn [forallb].
    + apply andb_true_iff. eauto.
    + apply andb_true_iff. eauto.
  - intros s d r. cbn [parse_members]. intros Hp.
    repeat case_match; simplify_eq; cbn [forallb snd].
    + apply andb_true_iff. eauto.
    + apply andb_true_iff. eauto.
Qed.

Theorem ref_loads_wf s v : ref_loads s = Ok v -> json_wf v = true.
Proof.
  unfold ref_loads. intros Hl. repeat case_match; simplify_eq.
  eapply (proj1 (parse_wf _)). eassumption.
Qed.

End RefJsonFacts.

#[global] Instance ref_codec : JsonCodec := {|
  dumps := RefJson.ref_dumps;
  loads := RefJson.ref_loads;
  dumps_tuple := RefJsonFacts.ref_dumps_tuple;
  dumps_small := RefJsonFacts.ref_dumps_small;
  loads_dumps := RefJsonFacts.ref_loads_dumps;
  loads_wf := RefJsonFacts.ref_loads_wf;
  loads_empty := eq_refl
|}.

(** ** The stable sort is an [argsort] *)

Module StableSortFacts.
Import StableSort.

Section Facts.
Context {A : Type}.
Variable le : A -> A -> bool.
Hypothesis Htotal : forall x y, le x y = true \/ le y x = true.
Hypothesis Htrans : forall x y z, le x y = true -> le y z = true -> le x z = true.

Lemma insert_perm x l : insert le x l ≡ₚ x :: l.
Proof.
  induction l as [|y l IH]; [reflexivity|]. cbn [insert].
  destruct (le x.2 y.2); [reflexivity|].
  rewrite IH. apply Permutation_swap.
Qed.

Lemma insert_sorted x l :
  StronglySorted (asc le) l -> Forall (fun y => x.1 < y.1) l ->
  StronglySorted (asc le) (insert le x l).
Proof.
  induction l as [|y l IH]; intros Hs Hx.
  - repeat constructor.
  - apply StronglySorted_inv in Hs as [Hs Hy].
    apply Forall_cons in Hx as [Hxy Hx]. cbn [insert].
    destruct (le x.2 y.2) eqn:E.
    + constructor; [by constructor|]. constructor; [by split|].
      rewrite Forall_forall in Hy, Hx |- *.
      intros z Hz. split; [|intros _; by apply Hx].
      eapply Htrans; [exact E|]. by apply Hy.
    + constructor; [by apply IH|].
      rewrite (insert_perm x l). constructor; [|exact Hy].
      split; [|congruence]. destruct (Htotal x.2 y.2); congruence.
Qed.

Lemma sort_perm l : foldr (insert le) [] l ≡ₚ l.
Proof.
  induction l as [|x l IH]; [reflexivity|]. cbn [foldr].
  by rewrite insert_perm, IH.
Qed.

Lemma sort_sorted l :
  StronglySorted (fun x y : nat * A => x.1 < y.1) l ->
  StronglySorted (asc le) (foldr (insert le) [] l).
Proof.
  induction 1 as [|x l _ IH Hx]; [constructor|]. cbn [foldr].
  apply insert_sorted; [exact IH|]. by rewrite sort_perm.
Qed.

Lemma zip_seq_lookup (scores : list A) a i :
  zip (seq a (List.length scores)) scores !! i
  = (fun s => (a + i, s)) <$> scores !! i.
Proof.
  revert a i. induction scores as [|s scores IH]; intros a [|i]; try reflexivity.
  - cbn. by rewrite Nat.add_0_r.
  - cbn [List.length seq zip_with]. rewrite !lookup_cons. rewrite IH.
    destruct (scores !! i); cbn; [|done]. repeat f_equal. lia.
Qed.

Lemma indexed_lookup (scores : list A) i :
  indexed scores !! i = (fun s => (i, s)) <$> scores !! i.
Proof. unfold indexed. by rewrite zip_seq_lookup. Qed.

Lemma elem_of_indexed (scores : list A) i s :
  (i, s) ∈ indexed scores <-> scores !! i = Some s.
Proof.
  rewrite list_elem_of_lookup. split.
  - intros [n Hn]. rewrite indexed_lookup in Hn.
    destruct (scores !! n) eqn:E; cbn in Hn; by simplify_eq.
  - intros Hs. exists i. rewrite indexed_lookup. by rewrite Hs.
Qed.

Lemma indexed_fst (scores : list A) :
  map fst (indexed scores) = seq 0 (List.length scores).
Proof.
  unfold indexed. generalize 0.
  induction scores as [|s scores IH]; intros a; [reflexivity|].
  cbn. by rewrite IH.
Qed.

Lemma indexed_increasing (scores : list A) :
  StronglySorted (fun x y : nat * A => x.1 < y.1) (indexed scores).
Proof.
  unfold indexed. generalize 0.
  induction scores as [|s scores IH]; intros a; [constructor|].
  cbn [List.length seq zip_with]. constructor; [apply IH|].
  apply Forall_forall. intros [j t] Hj.
  apply list_elem_of_lookup in Hj as [n Hn].
  rewrite zip_seq_lookup in Hn.
  destruct (scores !! n); cbn in Hn; simplify_eq. cbn. lia.
Qed.

Lemma sorted_asc scores : StronglySorted (asc le) (sorted le scores).
Proof. apply sort_sorted, indexed_increasing. Qed.

Theorem stable_argsort_perm scores :
  argsort le scores ≡ₚ seq 0 (List.length scores).
Proof. unfold argsort, sorted. by rewrite sort_perm, indexed_fst. Qed.

Lemma StronglySorted_lookup {B} (R : relation B) l a b x y :
  StronglySorted R l -> a < b -> l !! a = Some x -> l !! b = Some y -> R x y.
Proof.
  intros Hs. revert a b. induction Hs as [|z l _ IH Hz]; intros a b Hab Ha Hb.
  - by rewrite lookup_nil in Ha.
  - destruct b as [|b]; [lia|]. rewrite lookup_cons in Hb.
    destruct a as [|a].
    + cbn in Ha. injection Ha as ->.
      rewrite Forall_forall in Hz. apply Hz. by eapply list_elem_of_lookup_2.
    + rewrite lookup_cons in Ha. apply (IH a b); [lia|done|done].
Qed.

Lemma argsort_lookup scores a i :
  argsort le scores !! a = Some i ->
  exists s, sorted le scores !! a = Some (i, s) /\ scores !! i = Some s.
Proof.
  unfold argsort. intros Ha.
  apply list_lookup_fmap_Some in Ha as ([j s] & -> & Hp).
  exists s. split; [exact Hp|].
  apply elem_of_indexed. unfold sorted in Hp.
  rewrite <- (sort_perm (indexed scores)).
  by eapply list_elem_of_lookup_2.
Qed.

(** The stable sort is ascending, and keeps equal scores in the order
    of their indices. *)
Theorem stable_argsort_sorted scores a b i j si sj :
  a < b ->
  argsort le scores !! a = Some i -> argsort le scores !! b = Some j ->
  scores !! i = Some si -> scores !! j = Some sj ->
  le si sj = true /\ (le sj si = true -> i < j).
Proof.
  intros Hab Ha Hb Hi Hj.
  apply argsort_lookup in Ha as (si' & Ha & Hi').
  apply argsort_lookup in Hb as (sj' & Hb & Hj').
  simplify_eq.
  exact (StronglySorted_lookup _ _ a b _ _ (sorted_asc scores) Hab Ha Hb).
Qed.

End Facts.
End StableSortFacts.

(** The rationals are totally and transitively ordered. *)
Lemma Qle_bool_total x y : Qle_bool x y = true \/ Qle_bool y x = true.
Proof.
  rewrite !Qle_bool_iff.
  destruct (Qlt_le_dec x y) as [Hlt|Hle]; [left; by apply Qlt_le_weak|by right].
Qed.

Lemma Qle_bool_trans x y z :
  Qle_bool x y = true -> Qle_bool y z = true -> Qle_bool x z = true.
Proof. rewrite !Qle_bool_iff. apply Qle_trans. Qed.

#[global] Instance ref_numpy : NumPy := {|
  num := Q;
  zero := 0%Q;
  add := fun x y => Qred (x + y);
  mul := fun x y => Qred (x * y);
  div := fun x y => Qred (x / y);
  sqrt := RefNumPy.qsqrt;
  eps := (1 # RefNumPy.scale)%Q;
  leb := Qle_bool;
  tolist_dumps := RefNumPy.pr_vector;
  argsort := StableSort.argsort Qle_bool;
  argsort_perm := StableSortFacts.stable_argsort_perm Qle_bool;
  argsort_sorted := fun scores a b i j si sj _ Hab Ha Hb Hi Hj =>
    proj1 (StableSortFacts.stable_argsort_sorted Qle_bool Qle_bool_total
             Qle_bool_trans scores a b i j si sj Hab Ha Hb Hi Hj)
|}.

(** * Proofs *)

(** ** Strings *)

Section StrFacts.

Lemma append_cons c (a b : string) : String c a +:+ b = String c (a +:+ b).
Proof. reflexivity. Qed.

Lemma append_nil_l (b : string) : "" +:+ b = b.
Proof. reflexivity. Qed.

Lemma length_append (a b : string) :
  String.length (a +:+ b) = String.length a + String.length b.
Proof.
  induction a as [|c a IH]; [reflexivity|].
  rewrite append_cons. cbn. by rewrite IH.
Qed.

Lemma append_nil_r (a : string) : a +:+ "" = a.
Proof.
  induction a as [|c a IH]; [reflexivity|]. by rewrite append_cons, IH.
Qed.

Lemma append_assoc (a b c : string) : (a +:+ b) +:+ c = a +:+ b +:+ c.
Proof.
  induction a as [|x a IH]; [reflexivity|]. by rewrite !append_cons, IH.
Qed.

Lemma chars_append (a b : string) :
  list_ascii_of_string (a +:+ b)
  = list_ascii_of_string a ++ list_ascii_of_string b.
Proof.
  induction a as [|c a IH]; [reflexivity|].
  rewrite append_cons. cbn. by rewrite IH.
Qed.

Lemma chars_inj (a b : string) :
  list_ascii_of_string a = list_ascii_of_string b -> a = b.
Proof.
  intros Heq. rewrite <- (string_of_list_ascii_of_string a),
    <- (string_of_list_ascii_of_string b). by rewrite Heq.
Qed.

Lemma append_inj_l (a b c : string) : a +:+ c = b +:+ c -> a = b.
Proof.
  intros Heq. apply chars_inj.
  apply (f_equal list_ascii_of_string) in Heq. rewrite !chars_append in Heq.
  by apply app_inv_tail in Heq.
Qed.

Lemma length_chars_string (a : string) :
  List.length (list_ascii_of_string a) = String.length a.
Proof. induction a as [|c a IH]; cbn; congruence. Qed.

Lemma length_take n s : String.length (Str.take n s) = Nat.min n (String.length s).
Proof.
  revert s. induction n as [|n IH]; intros [|c s]; cbn; try reflexivity.
  by rewrite IH.
Qed.

Lemma take_all n s : String.length s <= n -> Str.take n s = s.
Proof.
  revert s. induction n as [|n IH]; intros [|c s]; cbn; try reflexivity; try lia.
  intros Hn. rewrite IH; [reflexivity|lia].
Qed.

Lemma slice_to_nonneg m s :
  (0 <= m)%Z -> Str.slice_to m s = Str.take (Z.to_nat m) s.
Proof. intros Hm. unfold Str.slice_to. by apply Z.leb_le in Hm as ->. Qed.

Lemma starts_with_spec p s :
  Str.starts_with p s = true <-> exists post, s = p +:+ post.
Proof.
  revert s. induction p as [|a p IH]; intros s; cbn.
  - split; [intros _; by exists s|done].
  - destruct s as [|b s]; cbn.
    + split; [done|intros [post Hp]; discriminate].
    + rewrite andb_true_iff, IH. split.
      * intros [Hab [post ->]]. apply Ascii.eqb_eq in Hab as ->. by exists post.
      * intros [post Hp]. rewrite append_cons in Hp. injection Hp as -> ->.
        split; [apply Ascii.eqb_refl|by exists post].
Qed.

(** [x in s] holds exactly when [x] occurs in [s]. *)
Lemma contains_spec x s :
  Str.contains x s = true <-> exists pre post, s = pre +:+ x +:+ post.
Proof.
  induction s as [|c s IH].
  - cbn. rewrite orb_false_r, starts_with_spec. split.
    + intros [post Hp]. by exists "", post.
    + intros (pre & post & Hp). destruct pre; [by exists post|discriminate].
  - cbn [Str.contains]. rewrite orb_true_iff, starts_with_spec, IH. split.
    + intros [[post Hp]|(pre & post & ->)].
      * by exists "", post.
      * by exists (String c pre), post.
    + intros (pre & post & Hp). destruct pre as [|a pre].
      * left. by exists post.
      * right. rewrite append_cons in Hp. injection Hp as -> ->.
        by exists pre, post.
Qed.

End StrFacts.


(** ** Paths and files *)

Section OsFacts.
Import Os.
Context `{World}.

Lemma components_nonempty path : components path <> [].
Proof.
  destruct path as [|c rest]; [discriminate|]. cbn [components].
  destruct (Ascii.eqb c "/"); [discriminate|].
  by destruct (components rest).
Qed.

Lemma components_app (a b : string) :
  components (a +:+ String "/" b) = components a ++ components b.
Proof.
  induction a as [|c a IH]; [reflexivity|].
  rewrite append_cons. cbn [components]. rewrite IH.
  destruct (Ascii.eqb c "/"); [reflexivity|].
  pose proof (components_nonempty a) as Hne.
  by destruct (components a).
Qed.

Lemma components_no_slash s : no_slash s = true -> components s = [s].
Proof.
  induction s as [|c s IH]; [reflexivity|].
  cbn [no_slash components]. intros Hs. apply andb_true_iff in Hs as [Hc Hs].
  apply negb_true_iff in Hc. rewrite Hc. by rewrite (IH Hs).
Qed.

Lemma no_slash_app (a b : string) :
  no_slash (a +:+ b) = no_slash a && no_slash b.
Proof.
  induction a as [|c a IH]; [reflexivity|].
  rewrite append_cons. cbn [no_slash]. by rewrite IH, andb_assoc.
Qed.

Lemma no_slash_start (s : string) : no_slash s = true -> start s = cwd.
Proof.
  destruct s as [|c s]; [reflexivity|]. cbn [no_slash]. intros Hs.
  apply andb_true_iff in Hs as [Hc _]. apply negb_true_iff in Hc.
  unfold start. destruct c as [[] [] [] [] [] [] [] []]; try reflexivity.
  discriminate.
Qed.

Lemma start_app (a b : string) : a <> "" -> start (a +:+ b) = start a.
Proof. by destruct a. Qed.

Lemma descend_app fs names1 : forall cur names2,
  descend fs cur (names1 ++ names2)
  = descend fs cur names1 ≫= fun d => descend fs d names2.
Proof.
  induction names1 as [|name names1 IH]; intros cur names2; [reflexivity|].
  cbn [app descend].
  destruct (String.eqb name "" || String.eqb name "."); [apply IH|].
  destruct (String.eqb name ".."); [apply IH|].
  destruct (is_dir (cur ++ [name])); [apply IH|].
  by destruct (is_file fs (cur ++ [name])).
Qed.

(** Whether a walk arrives, and where, does not depend on the files. *)
Lemma descend_Ok fs fs' names : forall cur d,
  descend fs cur names = Ok d -> descend fs' cur names = Ok d.
Proof.
  induction names as [|name names IH]; intros cur d; [done|].
  cbn [descend].
  destruct (String.eqb name "" || String.eqb name "."); [apply IH|].
  destruct (String.eqb name ".."); [apply IH|].
  destruct (is_dir (cur ++ [name])); [apply IH|].
  by destruct (is_file fs (cur ++ [name])).
Qed.

Lemma locate_Ok fs fs' path k :
  locate fs path = Ok k -> locate fs' path = Ok k.
Proof.
  unfold locate.
  destruct (descend fs (start path) (removelast (components path)))
    as [d|e] eqn:E; [|discriminate].
  by rewrite (descend_Ok fs fs' _ _ _ E).
Qed.

Lemma locate_Raise fs fs' path e :
  locate fs path = Raise e -> exists e', locate fs' path = Raise e'.
Proof.
  intros He. destruct (locate fs' path) as [k|e'] eqn:E; [|by eauto].
  apply (locate_Ok fs' fs) in E. congruence.
Qed.

Lemma ends_with_slash_inv s :
  ChatHistory.ends_with_slash s = true -> exists s', s = s' +:+ "/".
Proof.
  unfold ChatHistory.ends_with_slash.
  induction s as [|c s IH]; [discriminate|].
  destruct s as [|c' s].
  - cbn. intros Hc. apply Ascii.eqb_eq in Hc as ->. by exists "".
  - intros Hl. destruct (IH Hl) as [s' ->].
    exists (String c s'). by rewrite append_cons.
Qed.

(** A name in a directory that exists: the place of
    [os.path.join(dir, name)]. *)
Lemma locate_join fs dir name d :
  descend (Files ∅) (start dir) (components dir) = Ok d ->
  no_slash name = true ->
  name <> "" -> name <> "." -> name <> ".." ->
  locate fs (ChatHistory.path_join dir name) = Ok (d ++ [name]).
Proof.
  intros Hd Hname Hn0 Hn1 Hn2.
  apply (descend_Ok _ fs) in Hd.
  assert (forall path,
             start path = start dir ->
             (exists names, components path = names ++ [name]
                            /\ descend fs (start dir) names = Ok d) ->
             locate fs path = Ok (d ++ [name])) as Hloc.
  { intros path Hs (names & Hc & Hw). unfold locate.
    rewrite Hc, removelast_last, last_last, Hs, Hw. cbn [mbind result_bind].
    destruct (String.eqb_spec name "") as [?|_]; [done|].
    destruct (String.eqb_spec name ".") as [?|_]; [done|].
    destruct (String.eqb_spec name "..") as [?|_]; [done|]. reflexivity. }
  unfold ChatHistory.path_join.
  assert (match name with String "/" _ => False | _ => True end) as Hrel.
  { destruct name as [|c name]; [done|]. cbn [no_slash] in Hname.
    apply andb_true_iff in Hname as [Hc _]. apply negb_true_iff in Hc.
    destruct c as [[] [] [] [] [] [] [] []]; try done. }
  assert ((if String.eqb dir "" || ChatHistory.ends_with_slash dir
           then dir +:+ name else dir +:+ "/" +:+ name)
          = match name with
            | String "/" _ => name
            | _ => if String.eqb dir "" || ChatHistory.ends_with_slash dir
                   then dir +:+ name else dir +:+ "/" +:+ name
            end) as <-.
  { destruct name as [|c name]; [done|].
    destruct c as [[] [] [] [] [] [] [] []]; try done. }
  destruct (String.eqb_spec dir "") as [->|Hne]; cbn [orb].
  - rewrite append_nil_l. apply Hloc.
    + by apply no_slash_start.
    + exists []. split; [by apply components_no_slash|].
      cbn in Hd |- *. exact Hd.
  - destruct (ChatHistory.ends_with_slash dir) eqn:Es.
    + destruct (ends_with_slash_inv _ Es) as [dir' ->].
      apply Hloc; [by apply start_app|].
      exists (components dir'). split.
      * rewrite append_assoc. change ("/" +:+ name) with (String "/" name).
        rewrite components_app. by rewrite (components_no_slash name).
      * change (dir' +:+ "/") with (dir' +:+ String "/" "") in Hd.
        rewrite components_app, descend_app in Hd.
        destruct (descend fs _ (components dir')) as [d'|e] eqn:E;
          [|discriminate].
        cbn in Hd. by injection Hd as <-.
    + apply Hloc; [by apply start_app|].
      exists (components dir). split; [|exact Hd].
      change ("/" +:+ name) with (String "/" name).
      rewrite components_app. by rewrite (components_no_slash name).
Qed.

(** *** Reading, writing and removing *)

Lemma locate_join_dot fs dir name d :
  dir <> "" ->
  descend (Files ∅) (start dir) (components dir) = Ok d ->
  no_slash name = true ->
  name <> "" -> name <> "." -> name <> ".." ->
  locate fs (ChatHistory.path_join dir ("./" +:+ name)) = Ok (d ++ [name]).
Proof.
  intros Hdir Hd Hname Hn0 Hn1 Hn2.
  apply (descend_Ok _ fs) in Hd.
  assert (forall path,
             start path = start dir ->
             (exists names, components path = names ++ [name]
                            /\ descend fs (start dir) names = Ok d) ->
             locate fs path = Ok (d ++ [name])) as Hloc.
  { intros path Hs (names & Hc & Hw). unfold locate.
    rewrite Hc, removelast_last, last_last, Hs, Hw. cbn [mbind result_bind].
    destruct (String.eqb_spec name "") as [?|_]; [done|].
    destruct (String.eqb_spec name ".") as [?|_]; [done|].
    destruct (String.eqb_spec name "..") as [?|_]; [done|]. reflexivity. }
  assert (components ("./" +:+ name) = ["."; name]) as Hdot.
  { change ("./" +:+ name) with ("." +:+ String "/" name).
    rewrite components_app. by rewrite (components_no_slash name). }
  change ("./" +:+ name) with (String "." (String "/" name)) in *.
  unfold ChatHistory.path_join.
  destruct (String.eqb_spec dir "") as [->|_]; [done|]. cbn [orb].
  destruct (ChatHistory.ends_with_slash dir) eqn:Es.
  - destruct (ends_with_slash_inv _ Es) as [dir' ->].
    apply Hloc; [by apply start_app|].
    exists (components dir' ++ ["."]). split.
    + rewrite append_assoc.
      change ("/" +:+ String "." (String "/" name))
        with (String "/" (String "." (String "/" name))).
      rewrite components_app, Hdot. by rewrite <- app_assoc.
    + change (dir' +:+ "/") with (dir' +:+ String "/" "") in Hd.
      rewrite components_app, descend_app in Hd. rewrite descend_app.
      destruct (descend fs _ (components dir')) as [d'|e] eqn:E;
        [|discriminate].
      cbn in Hd |- *. exact Hd.
  - apply Hloc; [by apply start_app|].
    exists (components dir ++ ["."]). split.
    + change ("/" +:+ String "." (String "/" name))
        with (String "/" (String "." (String "/" name))).
      rewrite components_app, Hdot. by rewrite <- app_assoc.
    + rewrite descend_app, Hd. reflexivity.
Qed.

Lemma lookup_unfold (fs : files) path :
  fs !! path = match locate fs path with
               | Ok k => regular fs !! k
               | Raise _ => None
               end.
Proof. reflexivity. Qed.

Lemma delete_unfold (fs : files) path :
  delete path fs = match locate fs path with
                   | Ok k => Files (delete k (regular fs))
                   | Raise _ => fs
                   end.
Proof. reflexivity. Qed.


Lemma files_lookup_Some (fs : files) path content :
  fs !! path = Some content ->
  exists k, locate fs path = Ok k /\ regular fs !! k = Some content.
Proof.
  rewrite lookup_unfold. destruct (locate fs path) as [k|e]; [eauto|discriminate].
Qed.

Lemma write_inv fs path text fs' :
  write fs path text = Ok fs' ->
  exists k, locate fs path = Ok k /\ fs' = Files (<[k := text]> (regular fs)).
Proof.
  unfold write. destruct (locate fs path) as [k|e]; [|discriminate].
  cbn. intros [= <-]. eauto.
Qed.

Lemma write_located fs path text k :
  locate fs path = Ok k ->
  write fs path text = Ok (Files (<[k := text]> (regular fs))).
Proof. intros Hk. unfold write. by rewrite Hk. Qed.

Lemma lookup_written fs path k text q :
  locate fs path = Ok k ->
  Files (<[k := text]> (regular fs)) !! q
  = if decide (locate fs q = Ok k) then Some text else fs !! q.
Proof.
  intros Hk. rewrite !lookup_unfold.
  destruct (locate fs q) as [kq|e] eqn:Eq.
  - rewrite (locate_Ok fs _ q kq Eq). cbn [regular].
    destruct (decide (Ok kq = Ok k)) as [[= ->]|Hne].
    + apply lookup_insert_eq.
    + apply lookup_insert_ne. congruence.
  - destruct (locate_Raise fs (Files (<[k:=text]> (regular fs))) q e Eq) as [e' ->].
    by destruct (decide (Raise e = Ok k)).
Qed.

Lemma lookup_removed fs path k q :
  locate fs path = Ok k ->
  Files (delete k (regular fs)) !! q
  = if decide (locate fs q = Ok k) then None else fs !! q.
Proof.
  intros Hk. rewrite !lookup_unfold.
  destruct (locate fs q) as [kq|e] eqn:Eq.
  - rewrite (locate_Ok fs _ q kq Eq). cbn [regular].
    destruct (decide (Ok kq = Ok k)) as [[= ->]|Hne].
    + apply lookup_delete_eq.
    + apply lookup_delete_ne. congruence.
  - destruct (locate_Raise fs (Files (delete k (regular fs))) q e Eq) as [e' ->].
    by destruct (decide (Raise e = Ok k)).
Qed.

End OsFacts.

(** ** The session store *)

Section ChatHistoryFacts.
Import ChatHistory ChatHistorySpec.
Context `{JsonCodec} `{Os.World}.
Variable self : t.

Lemma lookup_wf d k v :
  json_wf (JDict d) = true -> Py.lookup d k = Some v -> json_wf v = true.
Proof.
  cbn [json_wf]. intros Hwf. apply andb_true_iff in Hwf as [_ Hwf].
  induction d as [|[k' v'] d IH]; cbn in *; [done|].
  apply andb_true_iff in Hwf as [Hv Hd].
  destruct (String.eqb k' k); [by intros [= <-]|auto].
Qed.

(** The file of a session whose id is one name is in the storage
    directory. *)
Lemma plain_located fs sid :
  plain_id sid = true ->
  Os.locate fs (_get_session_path self sid)
  = Ok (storage_location self ++ [sid +:+ ".json"]).
Proof.
  intros Hplain. unfold _get_session_path, storage_location.
  pose proof (storage_ready self) as Hready. unfold Os.is_directory in Hready.
  apply andb_true_iff in Hready as [_ Hready].
  destruct (Os.descend _ _ (Os.components (storage_dir self))) as [d|e] eqn:Ed;
    [|discriminate].
  assert (forall s : string, 5 <= String.length (sid +:+ ".json")) as Hlen.
  { intros _. rewrite length_append. cbn. lia. }
  apply (locate_join fs _ _ d Ed).
  - unfold plain_id in Hplain. by rewrite no_slash_app, Hplain.
  - intros Heq. specialize (Hlen ""). rewrite Heq in Hlen. cbn in Hlen. lia.
  - intros Heq. specialize (Hlen ""). rewrite Heq in Hlen. cbn in Hlen. lia.
  - intros Heq. specialize (Hlen ""). rewrite Heq in Hlen. cbn in Hlen. lia.
Qed.


(** What [get_messages] returns was read by [loads] or is the fresh
    empty list. *)
Lemma get_messages_wf fs sid old :
  get_messages self fs sid = Ok (JList old) -> forallb json_wf old = true.
Proof.
  unfold get_messages.
  destruct (fs !! _get_session_path self sid) as [content|]; [|by intros [= <-]].
  destruct (loads content) as [data|e] eqn:El.
  - apply loads_wf in El.
    destruct data as [| | | | |d|]; try discriminate. cbn [Py.get].
    destruct (Py.lookup d "messages") as [v|] eqn:Ek; cbn [default].
    + intros [= ->]. by apply (lookup_wf _ _ _ El) in Ek.
    + by intros [= <-].
  - destruct e; try discriminate; by intros [= <-].
Qed.

Lemma or_empty_wf o : arg_wf o = true -> json_wf (Py.or_empty o) = true.
Proof. by destruct o as [[|kv d]|]. Qed.

Lemma new_message_wf uid now role content dc md :
  arg_wf dc = true -> arg_wf md = true ->
  json_wf (new_message uid now role content dc md) = true.
Proof.
  intros Hdc Hmd. unfold new_message. cbn [json_wf forallb snd].
  rewrite (or_empty_wf _ Hdc), (or_empty_wf _ Hmd).
  reflexivity.
Qed.

Lemma record_wf msgs : json_wf (record msgs) = forallb json_wf msgs.
Proof.
  unfold record. cbn [json_wf forallb snd map fst].
  rewrite bool_decide_eq_true_2 by (apply NoDup_singleton).
  cbn [andb]. apply andb_true_r.
Qed.

Lemma record_small msgs :
  json_small (record msgs) = forallb message_small msgs.
Proof. unfold record, json_small. cbn. apply andb_true_r. Qed.

(** A record that was written is read back. *)
Lemma get_messages_written fs sid k text msgs :
  Os.locate fs (_get_session_path self sid) = Ok k ->
  dumps (record msgs) = Ok text ->
  forallb json_wf msgs = true ->
  get_messages self (Os.Files (<[k := text]> (Os.regular fs))) sid
  = Ok (JList msgs).
Proof.
  intros Hk Hd Hwf. unfold get_messages.
  rewrite (lookup_written fs _ k text _ Hk).
  rewrite decide_True by done.
  rewrite (loads_dumps (record msgs) text); [reflexivity| |exact Hd].
  by rewrite record_wf.
Qed.

(** An empty file reads as no message. *)
Lemma get_messages_emptied fs sid k :
  Os.locate fs (_get_session_path self sid) = Ok k ->
  get_messages self (Os.Files (<[k := ""]> (Os.regular fs))) sid
  = Ok (JList []).
Proof.
  intros Hk. unfold get_messages.
  rewrite (lookup_written fs _ k "" _ Hk).
  rewrite decide_True by done. by rewrite loads_empty.
Qed.

(** The three ways [add_message] ends once the history is read: the
    file cannot be opened, [dumps] raises on the extended record and the
    file stays empty, or the record is written. *)
Lemma add_message_cases fs sid old uid now role content dc md :
  get_messages self fs sid = Ok (JList old) ->
  let msg := new_message uid now role content dc md in
  let out := add_message self fs uid now sid role content dc md in
  (exists e, Os.locate fs (_get_session_path self sid) = Raise e
             /\ out = (Raise e, fs))
  \/ (exists k e, Os.locate fs (_get_session_path self sid) = Ok k
                  /\ dumps (record (old ++ [msg])) = Raise e
                  /\ out = (Raise e, Os.Files (<[k := ""]> (Os.regular fs))))
  \/ (exists k text, Os.locate fs (_get_session_path self sid) = Ok k
                     /\ dumps (record (old ++ [msg])) = Ok text
                     /\ out = (Ok msg, Os.Files (<[k := text]> (Os.regular fs)))).
Proof.
  intros Hget msg out. unfold out, add_message. rewrite Hget.
  cbn [Py.append]. fold msg. unfold Os.write.
  destruct (Os.locate fs (_get_session_path self sid)) as [k|e] eqn:Ek;
    cbn [mbind result_bind]; [|left; by eauto].
  right. fold (record (old ++ [msg])).
  destruct (dumps (record (old ++ [msg]))) as [text|e] eqn:Ed;
    [right|left; by eauto 6].
  exists k, text. split_and!; [reflexivity|reflexivity|].
  rewrite (locate_Ok fs (Os.Files (<[k:=""]> (Os.regular fs))) _ k Ek).
  cbn [mbind result_bind Os.regular]. by rewrite insert_insert_eq.
Qed.

(** One append: the history read, extended and written back. *)
Lemma add_message_appends fs sid old k text uid now role content dc md :
  get_messages self fs sid = Ok (JList old) ->
  Os.locate fs (_get_session_path self sid) = Ok k ->
  let msg := new_message uid now role content dc md in
  dumps (record (old ++ [msg])) = Ok text ->
  let fs' := Os.Files (<[k := text]> (Os.regular fs)) in
  add_message self fs uid now sid role content dc md = (Ok msg, fs')
  /\ (arg_wf dc = true -> arg_wf md = true ->
      get_messages self fs' sid = Ok (JList (old ++ [msg]))).
Proof.
  intros Hget Hk msg Hd fs'. split.
  - destruct (add_message_cases fs sid old uid now role content dc md Hget)
      as [(e & He & _)|[(k' & e & _ & He & _)|(k' & text' & Hk' & Hd' & Hout)]].
    + congruence.
    + fold msg in He. congruence.
    + fold msg in Hd'. rewrite Hout. unfold fs', msg.
      rewrite Hk in Hk'. rewrite Hd in Hd'. by simplify_eq.
  - intros Hdc Hmd. apply (get_messages_written fs sid k text _ Hk Hd).
    rewrite forallb_app, (get_messages_wf _ _ _ Hget). cbn [forallb].
    unfold msg. by rewrite new_message_wf.
Qed.


(** A small message on a small history is always printed. *)
Lemma small_record_dumps old msg :
  forallb message_small old = true -> message_small msg = true ->
  exists text, dumps (record (old ++ [msg])) = Ok text.
Proof.
  intros Hold Hmsg. apply dumps_small.
  rewrite record_small, forallb_app, Hold. cbn [forallb]. by rewrite Hmsg.
Qed.










(** *** Statistics *)












(** *** Reachable stores *)








End ChatHistoryFacts.

(** ** The semantic scorer *)

Section SortedLists.
Context {A : Type} (R : relation A).

Lemma StronglySorted_drop n l :
  StronglySorted R l -> StronglySorted R (drop n l).
Proof.
  revert n. induction l as [|x l IH]; intros [|n] Hs; try done.
  apply StronglySorted_inv in Hs as [Hs _]. by apply IH.
Qed.

Lemma StronglySorted_rev l :
  StronglySorted R l -> StronglySorted (flip R) (rev l).
Proof.
  induction 1 as [|x l _ IH Hx]; [constructor|]. cbn [rev].
  apply StronglySorted_app. split_and!; [|exact IH|repeat constructor].
  intros y z Hy Hz. apply list_elem_of_singleton in Hz as ->.
  rewrite Forall_forall in Hx. apply Hx.
  apply list_elem_of_In, in_rev, list_elem_of_In. exact Hy.
Qed.

Lemma StronglySorted_of_lookup l :
  (forall a b x y, a < b -> l !! a = Some x -> l !! b = Some y -> R x y) ->
  StronglySorted R l.
Proof.
  induction l as [|x l IH]; intros Hl; [constructor|].
  constructor.
  - apply IH. intros a b y z Hab Ha Hb.
    apply (Hl (S a) (S b)); [lia|done|done].
  - apply Forall_forall. intros y Hy.
    apply list_elem_of_lookup in Hy as [b Hb].
    apply (Hl 0 (S b)); [lia|done|done].
Qed.

End SortedLists.

Section SortingFacts.
Import Np DocumentRetriever.SimpleRetriever RetrieverSpec.
Context `{NumPy}.

Lemma pick_ok {A} (l : list A) idx :
  Forall (fun i => i < List.length l) idx ->
  exists out, pick l idx = Ok out
              /\ List.length out = List.length idx
              /\ forall a i, idx !! a = Some i -> out !! a = l !! i.
Proof.
  induction 1 as [|i idx Hi _ (out & IH & Hlen & Hout)]; [by exists []|].
  apply lookup_lt_is_Some_2 in Hi as [x Hx].
  exists (x :: out). cbn [pick]. rewrite Hx, IH. cbn.
  split_and!; [reflexivity|by rewrite Hlen|].
  intros [|a] j; cbn; [by intros [= <-]|apply Hout].
Qed.

Lemma cosine_scores_rows E q :
  Forall (fun row : vector => List.length row = List.length q) E ->
  cosine_scores E q = Ok (map (fun row => cosine row q) E).
Proof.
  intros Hshape. unfold cosine_scores, dot.
  assert (forallb (fun row : vector =>
                     Nat.eqb (List.length row) (List.length q)) E = true) as ->.
  { apply forallb_forall. intros row Hrow. apply Nat.eqb_eq.
    rewrite Forall_forall in Hshape. by apply Hshape, list_elem_of_In. }
  cbn [mbind result_bind]. f_equal. unfold norm_rows.
  induction E as [|row E IH]; [reflexivity|].
  apply Forall_cons in Hshape as [_ Hshape]. cbn. by rewrite IH.
Qed.

(** The ranking is the reverse of a suffix of [argsort]. *)
Lemma top_indices_suffix scores k :
  exists m, top_indices scores k = rev (drop m (argsort scores)).
Proof. unfold top_indices, slice_last. destruct (0 <? k)%Z; eauto. Qed.

Lemma elem_of_argsort scores i :
  i ∈ argsort scores <-> i < List.length scores.
Proof.
  rewrite (argsort_perm scores). rewrite list_elem_of_In, in_seq. lia.
Qed.

Lemma top_indices_bound scores k i :
  i ∈ top_indices scores k -> i < List.length scores.
Proof.
  destruct (top_indices_suffix scores k) as [m ->]. intros Hi.
  apply elem_of_argsort.
  apply list_elem_of_In, in_rev, list_elem_of_In in Hi.
  by eapply subseteq_drop.
Qed.

Lemma top_indices_NoDup scores k : NoDup (top_indices scores k).
Proof.
  destruct (top_indices_suffix scores k) as [m ->].
  assert (NoDup (argsort scores)) as Hnd.
  { rewrite argsort_perm. apply NoDup_ListNoDup, List.seq_NoDup. }
  apply NoDup_ListNoDup, NoDup_rev, NoDup_ListNoDup.
  eapply sublist_NoDup; [exact Hnd|apply sublist_drop].
Qed.

Lemma top_indices_length scores k :
  (0 < k)%Z ->
  List.length (top_indices scores k)
  = Nat.min (Z.to_nat k) (List.length scores).
Proof.
  intros Hk. unfold top_indices, slice_last.
  rewrite length_rev. apply Z.ltb_lt in Hk as ->.
  rewrite length_drop, (Permutation_length (argsort_perm scores)), length_seq.
  lia.
Qed.

(** With [k = 0] the slice [[-0:]] is the whole array: every chunk is
    returned. *)
Lemma top_indices_zero scores : top_indices scores 0 = rev (argsort scores).
Proof. reflexivity. Qed.

Section Order.
Hypothesis Htotal : leb_total.

Lemma argsort_ascending scores :
  StronglySorted (below scores) (argsort scores).
Proof.
  apply StronglySorted_of_lookup. intros a b i j Hab Ha Hb si sj Hi Hj.
  apply (argsort_sorted scores a b i j si sj); try done.
  intros s _. by destruct (Htotal s s).
Qed.

(** The ranking is in descending order of score. *)
Lemma top_indices_order scores k a b i j si sj :
  a < b ->
  top_indices scores k !! a = Some i ->
  top_indices scores k !! b = Some j ->
  scores !! i = Some si -> scores !! j = Some sj ->
  leb sj si = true.
Proof.
  intros Hab Ha Hb Hi Hj.
  destruct (top_indices_suffix scores k) as [m Hm]. rewrite Hm in Ha, Hb.
  pose proof (StronglySorted_rev _ _
                (StronglySorted_drop _ m _ (argsort_ascending scores))) as Hs.
  exact (StableSortFacts.StronglySorted_lookup _ _ a b _ _ Hs Hab Ha Hb
           sj si Hj Hi).
Qed.

(** Every chunk left out of the ranking scores no more than any chunk
    in it. *)
Lemma top_indices_best scores k j sj i si :
  scores !! j = Some sj -> j ∉ top_indices scores k ->
  i ∈ top_indices scores k -> scores !! i = Some si ->
  leb sj si = true.
Proof.
  intros Hj Hout Hin Hi.
  destruct (top_indices_suffix scores k) as [m Hm]. rewrite Hm in Hout, Hin.
  pose proof (argsort_ascending scores) as Hs.
  rewrite <- (take_drop m (argsort scores)) in Hs.
  apply StronglySorted_app in Hs as (Hs & _ & _).
  assert (i ∈ drop m (argsort scores)) as Hid.
  { by apply list_elem_of_In, in_rev, list_elem_of_In in Hin. }
  assert (j ∈ take m (argsort scores)) as Hjt.
  { assert (j ∈ argsort scores) as Hjs.
    { apply elem_of_argsort. by eapply lookup_lt_Some. }
    rewrite <- (take_drop m (argsort scores)) in Hjs.
    apply elem_of_app in Hjs as [?|Hjd]; [done|].
    exfalso. apply Hout.
    apply list_elem_of_In. apply -> in_rev. by apply list_elem_of_In. }
  exact (Hs _ _ Hjt Hid sj si Hj Hi).
Qed.

Lemma ranks_top_k_holds (self : DocumentRetriever.SimpleRetriever.t)
    (q : vector) (k : Z) :
  Forall (fun row : vector => List.length row = List.length q)
    (embeddings self) ->
  List.length (documents self) = List.length (embeddings self) ->
  (0 < k)%Z ->
  ranks_top_k self q k.
Proof.
  intros Hshape Hdocs Hk. unfold ranks_top_k.
  set (E := embeddings self) in *.
  set (scores := map (fun row => cosine row q) E).
  assert (List.length scores = List.length E) as Hlen by apply length_map.
  pose proof (cosine_scores_rows E q Hshape) as Hcos. fold scores in Hcos.
  set (top := top_indices scores k).
  assert (Forall (fun i => i < List.length scores) top) as Hb.
  { apply Forall_forall. intros i. apply top_indices_bound. }
  destruct (pick_ok (documents self) top) as (results & Hr & Hrl & Hrs).
  { by rewrite Hdocs, <- Hlen. }
  destruct (pick_ok scores top Hb) as (rscores & Hp & Hpl & Hps).
  assert (forall a sa, rscores !! a = Some sa ->
            exists i, top !! a = Some i /\ scores !! i = Some sa) as Hback.
  { intros a sa Ha.
    destruct (top !! a) as [i|] eqn:Et.
    - exists i. split; [reflexivity|]. by rewrite <- (Hps a i Et).
    - apply lookup_ge_None in Et. apply lookup_lt_Some in Ha. lia. }
  exists scores, top, results, rscores.
  split_and!; try done.
  - intros i row Hi. unfold scores.
    apply list_lookup_fmap_Some. exists row. by split.
  - unfold retrieve, retrieve_body. fold E. rewrite Hcos.
    cbn [mbind result_bind]. fold top. rewrite Hr.
    cbn [mbind result_bind]. by rewrite Hp.
  - unfold top. rewrite top_indices_length by done. by rewrite Hlen.
  - apply top_indices_NoDup.
  - intros a i Ha. split_and!; [|by apply Hrs|by apply Hps].
    rewrite <- Hlen. rewrite Forall_forall in Hb. apply Hb.
    by eapply list_elem_of_lookup_2.
  - intros a b sa sb Hab Ha Hb'.
    apply Hback in Ha as (i & Ha & Hi). apply Hback in Hb' as (j & Hb' & Hj).
    exact (top_indices_order scores k a b i j sa sb Hab Ha Hb' Hi Hj).
  - intros j sj s Hj Hout Hs.
    apply list_elem_of_lookup in Hs as [a Ha].
    apply Hback in Ha as (i & Ha & Hi).
    eapply (top_indices_best scores k j sj i s); try done.
    by eapply list_elem_of_lookup_2.
Qed.

(** C6. For embeddings [E] of [N] rows of the dimension of the query
    [q], as many documents, and [k >= 1]: the score of chunk [i] is
    [dot(E[i], q) / (||E[i]|| * ||q|| + 1e-9)], and the scorer returns
    the documents and scores of [min(k, N)] distinct chunks, in
    descending order of score, no chunk left out scoring more than a
    returned one. *)
Theorem semantic_scorer_top_k (self : DocumentRetriever.SimpleRetriever.t)
    (q : vector) (k : Z) :
  Forall (fun row : vector => List.length row = List.length q)
    (embeddings self) ->
  List.length (documents self) = List.length (embeddings self) ->
  (0 < k)%Z ->
  (exists scores,
      cosine_scores (embeddings self) q = Ok scores
      /\ forall i row,
           embeddings self !! i = Some row ->
           scores !! i
           = Some (div (vdot row q) (add (mul (vnorm row) (vnorm q)) eps)))
  /\ ranks_top_k self q k.
Proof.
  intros Hshape Hdocs Hk. split; [|by apply ranks_top_k_holds].
  eexists. split; [by apply cosine_scores_rows|].
  intros i row Hi. apply list_lookup_fmap_Some. exists row. by split.
Qed.

End Order.
End SortingFacts.

(** ** The document store *)

Section DocumentRetrieverFacts.
Import Np DocumentRetriever Upload.
Context `{NumPy}.
Variable encode : list string -> result matrix.
Variable encode_query : string -> result vector.
Variable hybrid_retrieve :
  list string -> SimpleRetriever.t -> string -> result hybrid_result.
Variable commit : list DocumentChunk -> list DocumentChunk -> result unit.

Lemma clean_blank chunks :
  Forall (fun c => strip c = "") chunks -> clean chunks = [].
Proof.
  induction 1 as [|c chunks Hc _ IH]; [reflexivity|].
  unfold clean in *. rewrite filter_cons_False by (by intros ?). exact IH.
Qed.

Lemma retrieve_no_documents self query top_k sw bw :
  documents self = [] ->
  retrieve encode_query hybrid_retrieve self query top_k sw bw = [].
Proof. intros Hd. unfold retrieve. by rewrite Hd. Qed.

(** C5. On an empty chunk store [retrieve] returns the empty list, for
    every query, [top_k] and weights: when the list of documents is
    empty, hence right after construction, and after a load whose chunks
    were all blank and filtered out. *)
Theorem retrieve_on_empty_store query top_k sw bw :
  (forall self,
      documents self = [] ->
      retrieve encode_query hybrid_retrieve self query top_k sw bw = [])
  /\ retrieve encode_query hybrid_retrieve init query top_k sw bw = []
  /\ (forall self chunks,
        chunks <> [] -> Forall (fun c => strip c = "") chunks ->
        exists self',
          add_documents encode self chunks = (Ok tt, self')
          /\ documents self' = []
          /\ retrieve encode_query hybrid_retrieve self' query top_k sw bw = []).
Proof.
  split_and!.
  - intros self. apply retrieve_no_documents.
  - by apply retrieve_no_documents.
  - intros self chunks Hne Hblank.
    exists {| documents := []; document_embeddings := document_embeddings self |}.
    split_and!; [|reflexivity|by apply retrieve_no_documents].
    unfold add_documents. destruct chunks as [|c chunks]; [done|].
    cbn [documents]. by rewrite (clean_blank _ Hblank).
Qed.

(** A load that fails in the embedding model has already replaced the
    documents: the embeddings are those of the previous corpus. *)
Lemma add_documents_failure self chunks e :
  clean chunks <> [] -> encode (clean chunks) = Raise e ->
  add_documents encode self chunks
  = (Raise e, {| documents := clean chunks;
                 document_embeddings := document_embeddings self |}).
Proof.
  intros Hne He. unfold add_documents.
  destruct chunks as [|c chunks]; [done|]. cbn [documents].
  destruct (clean (c :: chunks)) eqn:E; [done|]. by rewrite He.
Qed.



End DocumentRetrieverFacts.

(** * Further properties of the code *)

(** ** More on the session store *)

Section ChatHistoryMore.
Import ChatHistory ChatHistorySpec MoreSpec.
Context `{JsonCodec} `{Os.World}.
Variable self : t.

Lemma dot_located fs sid :
  plain_id sid = true ->
  Os.locate fs (_get_session_path self ("./" +:+ sid))
  = Ok (storage_location self ++ [sid +:+ ".json"]).
Proof.
  intros Hplain. unfold _get_session_path, storage_location.
  pose proof (storage_ready self) as Hready. unfold Os.is_directory in Hready.
  apply andb_true_iff in Hready as [Hdir Hready].
  destruct (Os.descend _ _ (Os.components (storage_dir self))) as [d|e] eqn:Ed;
    [|discriminate].
  assert (forall s : string, 5 <= String.length (sid +:+ ".json")) as Hlen.
  { intros _. rewrite length_append. cbn. lia. }
  rewrite append_assoc.
  apply (locate_join_dot fs _ _ d).
  - intros Heq. rewrite Heq in Hdir. discriminate.
  - exact Ed.
  - unfold plain_id in Hplain. by rewrite no_slash_app, Hplain.
  - intros Heq. specialize (Hlen ""). rewrite Heq in Hlen. cbn in Hlen. lia.
  - intros Heq. specialize (Hlen ""). rewrite Heq in Hlen. cbn in Hlen. lia.
  - intros Heq. specialize (Hlen ""). rewrite Heq in Hlen. cbn in Hlen. lia.
Qed.

(** X1. The file of a session id without a slash is in the storage
    directory, under the name [<id>.json], so two such ids have one file
    only when they are equal. An id with a slash can name the file of
    another session: ["./" + id] names the file of [id]. *)
Theorem session_paths_distinct fs (a b : string) :
  plain_id a = true -> plain_id b = true ->
  Os.locate fs (_get_session_path self a)
  = Ok (storage_location self ++ [a +:+ ".json"])
  /\ (same_file fs (_get_session_path self a) (_get_session_path self b)
      <-> a = b)
  /\ same_file fs (_get_session_path self ("./" +:+ a)) (_get_session_path self a)
  /\ _get_session_path self ("./" +:+ a) <> _get_session_path self a.
Proof.
  intros Ha Hb. split_and!.
  - by apply plain_located.
  - split.
    + intros (k & Hka & Hkb).
      rewrite (plain_located self fs a Ha) in Hka.
      rewrite (plain_located self fs b Hb) in Hkb.
      rewrite <- Hka in Hkb. injection Hkb as Heq.
      apply app_inv_head in Heq. injection Heq as Heq.
      symmetry. by apply append_inj_l in Heq.
    + intros <-. eexists. split; by apply plain_located.
  - eexists. split; [by apply dot_located|by apply plain_located].
  - intros Heq.
    assert (String.length (_get_session_path self ("./" +:+ a))
            = 2 + String.length (_get_session_path self a)) as Hlen.
    { unfold _get_session_path, path_join.
      rewrite (append_assoc "./" a ".json").
      change ("./" +:+ (a +:+ ".json")) with (String "." (String "/" (a +:+ ".json"))).
      assert (match a +:+ ".json" with String "/" _ => False | _ => True end) as Hrel.
      { destruct a as [|c a]; [done|]. rewrite append_cons.
        cbn [plain_id Os.no_slash] in Ha. unfold plain_id in Ha. cbn in Ha.
        apply andb_true_iff in Ha as [Hc _]. apply negb_true_iff in Hc.
        destruct c as [[] [] [] [] [] [] [] []]; try done. }
      destruct (a +:+ ".json") as [|c r]; [by destruct (_ || _); rewrite ?length_append; cbn; lia|].
      assert ((if String.eqb (storage_dir self) "" || ends_with_slash (storage_dir self)
               then storage_dir self +:+ String c r
               else storage_dir self +:+ "/" +:+ String c r)
              = match c with
                | "/"%char => String c r
                | _ => if String.eqb (storage_dir self) "" || ends_with_slash (storage_dir self)
                       then storage_dir self +:+ String c r
                       else storage_dir self +:+ "/" +:+ String c r
                end) as <-.
      { destruct c as [[] [] [] [] [] [] [] []]; try done. }
      destruct (_ || _); rewrite ?length_append; cbn; lia. }
    rewrite Heq in Hlen. lia.
Qed.

Lemma get_messages_same_file fs fs' sid :
  fs' !! _get_session_path self sid = fs !! _get_session_path self sid ->
  get_messages self fs' sid = get_messages self fs sid.
Proof. intros Heq. unfold get_messages. by rewrite Heq. Qed.

Lemma add_message_files fs uid now sid role content dc md :
  (add_message self fs uid now sid role content dc md).2 = fs
  \/ exists k text,
      Os.locate fs (_get_session_path self sid) = Ok k
      /\ (add_message self fs uid now sid role content dc md).2
         = Os.Files (<[k := text]> (Os.regular fs)).
Proof.
  destruct (get_messages self fs sid) as [messages|e] eqn:Hget.
  - destruct messages as [| | | |old| |];
      try (left; unfold add_message; by rewrite Hget).
    destruct (add_message_cases self fs sid old uid now role content dc md Hget)
      as [(e & _ & Heq)|[(k & e & Hk & _ & Heq)|(k & text & Hk & _ & Heq)]];
      rewrite Heq; cbn [snd]; by eauto.
  - left. unfold add_message. by rewrite Hget.
Qed.

(** X2. [add_message] and [clear_session] on one session leave every
    session whose path names another file as it was: its messages and
    its statistics are unchanged. *)
Theorem other_sessions_untouched fs sid sid' uid now role content dc md :
  ~ same_file fs (_get_session_path self sid) (_get_session_path self sid') ->
  let after_add := (add_message self fs uid now sid role content dc md).2 in
  let after_clear := (clear_session self fs sid).2 in
  get_messages self after_add sid' = get_messages self fs sid'
  /\ get_session_stats self after_add sid' = get_session_stats self fs sid'
  /\ get_messages self after_clear sid' = get_messages self fs sid'
  /\ get_session_stats self after_clear sid' = get_session_stats self fs sid'.
Proof.
  intros Hne after_add after_clear.
  assert (forall k, Os.locate fs (_get_session_path self sid) = Ok k ->
                    Os.locate fs (_get_session_path self sid') <> Ok k) as Hk'.
  { intros k Hk Hk'. apply Hne. by exists k. }
  assert (get_messages self after_add sid' = get_messages self fs sid') as Ha.
  { apply get_messages_same_file. unfold after_add.
    destruct (add_message_files fs uid now sid role content dc md)
      as [->|(k & text & Hk & ->)]; [reflexivity|].
    rewrite (lookup_written fs _ k text _ Hk).
    by rewrite decide_False by (by apply Hk'). }
  assert (get_messages self after_clear sid' = get_messages self fs sid') as Hc.
  { apply get_messages_same_file. unfold after_clear, clear_session.
    destruct (fs !! _get_session_path self sid) as [held|] eqn:E;
      [|reflexivity].
    destruct (files_lookup_Some _ _ _ E) as (k & Hk & _). cbn [snd].
    rewrite delete_unfold, Hk, (lookup_removed fs _ k _ Hk).
    by rewrite decide_False by (by apply Hk'). }
  unfold get_session_stats. by rewrite Ha, Hc.
Qed.

(** X3. A corrupt record is absorbed and then lost: when the session file
    holds text that is not JSON and the new message is small,
    [add_message] succeeds and the history becomes the new message
    alone. *)
Theorem corrupt_record_is_overwritten fs sid text uid now role content dc md :
  fs !! _get_session_path self sid = Some text ->
  loads text = Raise JSONDecodeError ->
  arg_wf dc = true -> arg_wf md = true ->
  let msg := new_message uid now role content dc md in
  message_small msg = true ->
  (add_message self fs uid now sid role content dc md).1 = Ok msg
  /\ get_messages self
       (add_message self fs uid now sid role content dc md).2 sid
     = Ok (JList [msg]).
Proof.
  intros Hfile Hbad Hdc Hmd msg Hsmall.
  assert (get_messages self fs sid = Ok (JList [])) as Hget.
  { unfold get_messages. by rewrite Hfile, Hbad. }
  destruct (files_lookup_Some _ _ _ Hfile) as (k & Hk & _).
  destruct (small_record_dumps [] msg eq_refl Hsmall) as [out Hout].
  destruct (add_message_appends self fs sid [] k out uid now role content dc md
              Hget Hk Hout) as [Hadd Hget'].
  rewrite Hadd. split; [reflexivity|]. by apply Hget'.
Qed.

(** X4. How [add_message] fails. The read of the history raised, or the
    stored ["messages"] is not a list ([AttributeError]), or the file
    cannot be opened: then every file is as it was. Or [json.dumps]
    raised after the file was opened for writing: then the file of the
    session is empty and the session reads as the empty list. *)
Theorem failed_append_cases fs sid uid now role content dc md e :
  let out := add_message self fs uid now sid role content dc md in
  let msg := new_message uid now role content dc md in
  out.1 = Raise e ->
  (get_messages self fs sid = Raise e /\ out.2 = fs)
  \/ (exists v, get_messages self fs sid = Ok v /\ not_a_list v
                /\ e = AttributeError /\ out.2 = fs)
  \/ (exists old, get_messages self fs sid = Ok (JList old)
                  /\ Os.locate fs (_get_session_path self sid) = Raise e
                  /\ out.2 = fs)
  \/ (exists old k, get_messages self fs sid = Ok (JList old)
                    /\ Os.locate fs (_get_session_path self sid) = Ok k
                    /\ dumps (record (old ++ [msg])) = Raise e
                    /\ out.2 = Os.Files (<[k := ""]> (Os.regular fs))
                    /\ get_messages self out.2 sid = Ok (JList [])).
Proof.
  intros out msg. unfold out.
  destruct (get_messages self fs sid) as [messages|e'] eqn:Hget.
  - destruct messages as [| | | |old| |];
      try (unfold add_message; rewrite Hget; cbn; intros [= <-];
           right; left; eexists; by split_and!).
    destruct (add_message_cases self fs sid old uid now role content dc md Hget)
      as [(e' & Hk & Heq)|[(k & e' & Hk & Hd & Heq)|(k & text & Hk & _ & Heq)]];
      rewrite Heq; cbn [fst snd]; [| |discriminate]; intros [= ->].
    + right; right; left. by exists old.
    + right; right; right. exists old, k. split_and!; try done.
      by apply get_messages_emptied.
  - unfold add_message. rewrite Hget. cbn. intros [= ->]. by left.
Qed.








Lemma with_role_missing role ms :
  Forall (fun m => exists d, m = JDict d) ms ->
  Exists (fun m => exists d, m = JDict d /\ Py.lookup d "role" = None) ms ->
  with_role role ms = Raise KeyError.
Proof.
  intros Hd Hex. induction Hex as [m ms (d & -> & Hno)|m ms Hex IH].
  - cbn. by rewrite Hno.
  - apply Forall_cons in Hd as [[d ->] Hd]. cbn [with_role Py.getitem].
    destruct (Py.lookup d "role"); [|reflexivity].
    cbn [mbind result_bind]. by rewrite (IH Hd).
Qed.

(** X7. A record whose messages are objects, one of them without the
    key ["role"], can be read but has no statistics:
    [get_session_stats] raises [KeyError]. *)
Theorem stats_need_a_role fs sid ms :
  get_messages self fs sid = Ok (JList ms) ->
  Forall (fun m => exists d, m = JDict d) ms ->
  Exists (fun m => exists d, m = JDict d /\ Py.lookup d "role" = None) ms ->
  get_session_stats self fs sid = Raise KeyError.
Proof.
  intros Hget Hd Hex. unfold get_session_stats. rewrite Hget.
  cbn [mbind result_bind]. unfold stats_of. cbn [Py.iter mbind result_bind].
  by rewrite (with_role_missing "user" ms Hd Hex).
Qed.



End ChatHistoryMore.

(** ** More on the document retriever *)

Section StripFacts.
Import DocumentRetriever MoreSpec.

Lemma lstrip_starts_clean l : starts_clean (lstrip l).
Proof.
  induction l as [|c l IH]; [exact I|]. cbn.
  destruct (is_space c) eqn:E; [exact IH|exact E].
Qed.

Lemma lstrip_fixed l : starts_clean l -> lstrip l = l.
Proof. destruct l as [|c l]; [reflexivity|]. cbn. by intros ->. Qed.

Lemma lstrip_suffix l : exists sp, l = sp ++ lstrip l.
Proof.
  induction l as [|c l [sp IH]]; [by exists []|]. cbn.
  destruct (is_space c); [|by exists []].
  exists (c :: sp). cbn. by rewrite <- IH.
Qed.

Lemma strip_core_clean l :
  let core := rev (lstrip (rev (lstrip l))) in
  starts_clean core /\ starts_clean (rev core).
Proof.
  intros core. split.
  - pose proof (lstrip_starts_clean l) as Ht.
    destruct (lstrip_suffix (rev (lstrip l))) as [sp Hsp].
    apply (f_equal (@rev ascii)) in Hsp.
    rewrite rev_involutive, rev_app_distr in Hsp. fold core in Hsp.
    rewrite Hsp in Ht. by destruct core.
  - unfold core. rewrite rev_involutive. apply lstrip_starts_clean.
Qed.

Lemma strip_idempotent s : strip (strip s) = strip s.
Proof.
  unfold strip. rewrite list_ascii_of_string_of_list_ascii.
  destruct (strip_core_clean (list_ascii_of_string s)) as [H1 H2].
  set (core := rev (lstrip (rev (lstrip (list_ascii_of_string s))))) in *.
  by rewrite (lstrip_fixed core H1), (lstrip_fixed (rev core) H2), rev_involutive.
Qed.

End StripFacts.

Section DocumentRetrieverMore.
Import Np DocumentRetriever.
Context `{NumPy}.
Variable encode : list string -> result matrix.
Variable encode_query : string -> result vector.
Variable hybrid_retrieve :
  list string -> SimpleRetriever.t -> string -> result hybrid_result.

Lemma add_documents_documents self chunks :
  chunks <> [] -> documents (add_documents encode self chunks).2 = clean chunks.
Proof.
  intros Hne. unfold add_documents. destruct chunks as [|c chunks]; [done|].
  cbn [documents]. destruct (clean (c :: chunks)) as [|d ds] eqn:E; [reflexivity|].
  by destruct (encode (d :: ds)).
Qed.

(** X8. Whatever its outcome, a load of a non-empty list of chunks leaves
    only trimmed, non-empty documents in the retriever, each the trimmed
    text of a given chunk. *)
Theorem documents_are_trimmed self chunks :
  chunks <> [] ->
  Forall (fun d => d <> "" /\ strip d = d /\ exists c, c ∈ chunks /\ d = strip c)
    (documents (add_documents encode self chunks).2).
Proof.
  intros Hne. rewrite (add_documents_documents self chunks Hne).
  unfold clean. apply Forall_forall. intros d Hd.
  apply list_elem_of_fmap in Hd as (c & -> & Hc).
  apply list_elem_of_filter in Hc as [Hc Hin].
  split_and!; [exact Hc|apply strip_idempotent|by exists c].
Qed.

(** X9. A load that fails in the embedding model is not undone: the
    exception leaves [add_documents] with the new documents in place and
    the embeddings of the previous corpus, and the next [retrieve] hands
    this mismatched pair to the hybrid search. *)
Theorem failed_load_is_half_applied self chunks e :
  clean chunks <> [] -> encode (clean chunks) = Raise e ->
  let after := (add_documents encode self chunks).2 in
  (add_documents encode self chunks).1 = Raise e
  /\ documents after = clean chunks
  /\ document_embeddings after = document_embeddings self
  /\ forall old query q res top_k sw bw,
       document_embeddings self = Some old ->
       encode_query query = Ok q ->
       hybrid_retrieve (clean chunks)
         {| SimpleRetriever.documents := clean chunks;
            SimpleRetriever.embeddings := old |} query = Ok res ->
       retrieve encode_query hybrid_retrieve after query top_k sw bw
       = format_results res.
Proof.
  intros Hne He after. unfold after.
  rewrite (add_documents_failure encode self chunks e Hne He). cbn [fst snd].
  split_and!; try reflexivity.
  intros old query q res top_k sw bw Hold Hq Hres.
  unfold retrieve. cbn [documents document_embeddings]. rewrite Hold.
  destruct (clean chunks) as [|d ds] eqn:E; [done|].
  rewrite Hq. cbn [mbind result_bind]. by rewrite Hres.
Qed.

Lemma format_results_scores r :
  Forall (fun h => semantic_score h = score h /\ bm25_score h = score h)
    (format_results r).
Proof.
  unfold format_results.
  destruct (hr_documents r) as [docs|]; [|constructor].
  destruct (hr_scores r) as [scores|]; [|constructor].
  revert scores. induction docs as [|d docs IH]; intros [|s scores];
    cbn; constructor; [by split|apply IH].
Qed.

(** X10. Every hit of [retrieve] carries one number three times: its
    semantic score and its BM25 score are its score; and the hits do not
    depend on [top_k] nor on the two weights. *)
Theorem hits_carry_one_score self query top_k sw bw :
  Forall (fun h => semantic_score h = score h /\ bm25_score h = score h)
    (retrieve encode_query hybrid_retrieve self query top_k sw bw)
  /\ forall top_k' sw' bw',
       retrieve encode_query hybrid_retrieve self query top_k' sw' bw'
       = retrieve encode_query hybrid_retrieve self query top_k sw bw.
Proof.
  split; [|reflexivity]. unfold retrieve.
  destruct (documents self) as [|d ds]; [constructor|].
  destruct (document_embeddings self) as [emb|]; [|constructor].
  destruct (encode_query query) as [q|]; [|constructor]. cbn [mbind result_bind].
  destruct (hybrid_retrieve _ _ _) as [res|]; [|constructor].
  apply format_results_scores.
Qed.

End DocumentRetrieverMore.

Section ScorerMore.
Import Np DocumentRetriever.SimpleRetriever.
Context `{NumPy}.

Lemma pick_inv {A} (l : list A) idx out :
  pick l idx = Ok out ->
  List.length out = List.length idx /\ Forall (fun x => x ∈ l) out.
Proof.
  revert out. induction idx as [|i idx IH]; intros out; cbn.
  - intros [= <-]. by split.
  - destruct (l !! i) as [x|] eqn:Ei; [|discriminate].
    destruct (pick l idx) as [rest|]; [|discriminate].
    cbn. intros [= <-]. destruct (IH rest eq_refl) as [Hlen Hall].
    split; [cbn; by rewrite Hlen|].
    constructor; [by eapply list_elem_of_lookup_2|exact Hall].
Qed.

Lemma pick_out_of_range {A} (l : list A) idx i :
  i ∈ idx -> l !! i = None -> exists e, pick l idx = Raise e.
Proof.
  intros Hin Hnone. induction idx as [|j idx IH]; [by apply not_elem_of_nil in Hin|].
  cbn. destruct (l !! j) as [x|] eqn:Ej; [|by eexists].
  apply elem_of_cons in Hin as [->|Hin]; [congruence|].
  destruct (IH Hin) as [e ->]. by eexists.
Qed.

Lemma cosine_scores_length E q scores :
  cosine_scores E q = Ok scores -> List.length scores = List.length E.
Proof.
  unfold cosine_scores, dot. destruct (forallb _ E); [|discriminate].
  cbn. intros [= <-]. unfold norm_rows.
  rewrite length_zip_with, !length_map. lia.
Qed.

Lemma top_indices_at_most scores k :
  List.length (top_indices scores k) <= List.length scores.
Proof.
  unfold top_indices, slice_last. rewrite length_rev.
  pose proof (Permutation_length (argsort_perm scores)) as Hp.
  rewrite length_seq in Hp.
  destruct (0 <? k)%Z; rewrite length_drop; lia.
Qed.

Lemma retrieve_shape (self : t) q k results result_scores :
  retrieve self q k = (results, result_scores) ->
  List.length results = List.length result_scores
  /\ List.length results <= List.length (embeddings self)
  /\ Forall (fun d => d ∈ documents self) results.
Proof.
  unfold retrieve, retrieve_body.
  destruct (cosine_scores (embeddings self) q) as [scores|] eqn:Es;
    [|intros [= <- <-]; split_and!; [reflexivity|cbn; lia|constructor]].
  cbn [mbind result_bind].
  destruct (pick (documents self) _) as [docs|] eqn:Ed;
    [|intros [= <- <-]; split_and!; [reflexivity|cbn; lia|constructor]].
  cbn [mbind result_bind].
  destruct (pick scores _) as [ss|] eqn:Ep;
    [|intros [= <- <-]; split_and!; [reflexivity|cbn; lia|constructor]].
  cbn. intros [= <- <-].
  apply pick_inv in Ed as [Hd Hin]. apply pick_inv in Ep as [Hp _].
  pose proof (top_indices_at_most scores k) as Hk.
  rewrite (cosine_scores_length _ _ _ Es) in Hk.
  split_and!; [congruence|lia|exact Hin].
Qed.

Lemma retrieve_at_most (self : t) q k :
  (0 < k)%Z -> List.length (retrieve self q k).1 <= Z.to_nat k.
Proof.
  intros Hk. unfold retrieve, retrieve_body.
  destruct (cosine_scores (embeddings self) q) as [scores|]; [|cbn; lia].
  cbn [mbind result_bind].
  destruct (pick (documents self) _) as [docs|] eqn:Ed; [|cbn; lia].
  cbn [mbind result_bind].
  destruct (pick scores _) as [ss|]; [|cbn; lia]. cbn.
  apply pick_inv in Ed as [-> _].
  unfold top_indices, slice_last. rewrite length_rev.
  assert ((0 <? k)%Z = true) as -> by lia.
  rewrite length_drop. lia.
Qed.

(** X11. For every store, query and [k], the scorer returns two lists of
    the same length, at most one entry per row of embeddings, and every
    returned text is a document of the store. *)
Theorem scorer_lists_align (self : t) q k :
  let r := retrieve self q k in
  List.length r.1 = List.length r.2
  /\ List.length r.1 <= List.length (embeddings self)
  /\ Forall (fun d => d ∈ documents self) r.1.
Proof.
  intros r. apply (retrieve_shape self q k). unfold r. apply surjective_pairing.
Qed.

(** X12. Errors inside the scorer are absorbed into the empty result: a
    query whose dimension is not that of some row, and a store with fewer
    documents than rows when every row is asked for, both give
    [([], [])]. *)
Theorem scorer_absorbs_errors (self : t) q k :
  (Exists (fun row : vector => List.length row <> List.length q)
     (embeddings self) ->
   retrieve self q k = ([], []))
  /\ (Forall (fun row : vector => List.length row = List.length q)
        (embeddings self) ->
      List.length (documents self) < List.length (embeddings self) ->
      (Z.of_nat (List.length (embeddings self)) <= k)%Z ->
      retrieve self q k = ([], [])).
Proof.
  split.
  - intros Hex. unfold retrieve, retrieve_body, cosine_scores, dot.
    assert (forallb (fun row : vector =>
              Nat.eqb (List.length row) (List.length q)) (embeddings self)
            = false) as ->; [|reflexivity].
    apply not_true_is_false. intros Hall. rewrite forallb_forall in Hall.
    apply Exists_exists in Hex as (row & Hin & Hne).
    apply Hne, Nat.eqb_eq, Hall. by apply list_elem_of_In.
  - intros Hshape Hdocs Hk. unfold retrieve, retrieve_body.
    rewrite (cosine_scores_rows _ _ Hshape). cbn [mbind result_bind].
    set (scores := map _ (embeddings self)).
    assert (List.length scores = List.length (embeddings self)) as Hlen
      by apply length_map.
    assert (List.length (documents self) ∈ top_indices scores k) as Hin.
    { unfold top_indices, slice_last.
      assert ((0 <? k)%Z = true) as -> by lia.
      pose proof (Permutation_length (argsort_perm scores)) as Hp.
      rewrite length_seq in Hp.
      replace (List.length (argsort scores) - Z.to_nat k) with 0 by lia.
      cbn [drop]. apply list_elem_of_In. apply -> in_rev. apply list_elem_of_In.
      rewrite argsort_perm. apply list_elem_of_In, in_seq. lia. }
    destruct (pick_out_of_range (documents self) _ _ Hin) as [e ->];
      [by apply lookup_ge_None|reflexivity].
Qed.

(** X13. With [k <= 0] the slice [[-k:]] starts at position [|k|] of the
    ascending ranking: the scorer returns [N - |k|] chunks, all [N] of
    them for [k = 0]. *)
Theorem scorer_nonpositive_k (self : t) q k :
  Forall (fun row : vector => List.length row = List.length q)
    (embeddings self) ->
  List.length (documents self) = List.length (embeddings self) ->
  (k <= 0)%Z ->
  List.length (retrieve self q k).1
  = List.length (embeddings self) - Z.to_nat (- k)
  /\ List.length (retrieve self q k).2
     = List.length (embeddings self) - Z.to_nat (- k).
Proof.
  intros Hshape Hdocs Hk. unfold retrieve, retrieve_body.
  rewrite (cosine_scores_rows _ _ Hshape). cbn [mbind result_bind].
  set (scores := map _ (embeddings self)).
  assert (List.length scores = List.length (embeddings self)) as Hlen
    by apply length_map.
  assert (Forall (fun i => i < List.length scores) (top_indices scores k)) as Hb.
  { apply Forall_forall. intros i. apply top_indices_bound. }
  assert (List.length (top_indices scores k)
          = List.length (embeddings self) - Z.to_nat (- k)) as Htop.
  { unfold top_indices, slice_last. rewrite length_rev.
    assert ((0 <? k)%Z = false) as -> by lia.
    rewrite length_drop, (Permutation_length (argsort_perm scores)), length_seq.
    lia. }
  destruct (pick_ok (documents self) (top_indices scores k))
    as (docs & -> & Hd & _); [by rewrite Hdocs, <- Hlen|].
  destruct (pick_ok scores (top_indices scores k) Hb) as (ss & -> & Hs & _).
  cbn. split; congruence.
Qed.

End ScorerMore.

(** ** The endpoints *)

Section FastAPIFacts.
Import Np DocumentRetriever FastAPI.

(** X14. [is_text_chunk] keeps a chunk exactly when its trimmed text has
    more than 30 characters and none of the three markers of OCR objects
    occurs in it. *)
Theorem is_text_chunk_spec chunk :
  is_text_chunk chunk = true
  <-> 30 < String.length (strip chunk)
      /\ forall x, x ∈ markers ->
           ~ exists pre post, chunk = pre +:+ x +:+ post.
Proof.
  unfold is_text_chunk.
  rewrite andb_true_iff, Nat.ltb_lt, negb_true_iff. split.
  - intros [Hlen Hno]. split; [exact Hlen|].
    intros x Hx Hocc. apply contains_spec in Hocc.
    apply not_true_iff_false in Hno. apply Hno, existsb_exists.
    exists x. split; [by apply list_elem_of_In|exact Hocc].
  - intros [Hlen Hno]. split; [exact Hlen|].
    apply not_true_iff_false. intros Hex.
    apply existsb_exists in Hex as (x & Hx & Hc).
    apply (Hno x); [by apply list_elem_of_In|]. by apply contains_spec.
Qed.

Lemma length_preview context : String.length (preview context) <= 503.
Proof.
  unfold preview. destruct (Nat.ltb_spec 500 (String.length context)).
  - rewrite slice_to_nonneg, length_append, length_take by lia. cbn. lia.
  - lia.
Qed.

(** The score kept for the first kept text is the score found at its
    position. *)
Lemma first_kept {A} (P : string -> bool) docs : forall (scores : list A) d kept,
  List.length docs = List.length scores ->
  List.filter P docs = d :: kept ->
  exists j s rest,
    map snd (List.filter (fun ds => P ds.1) (zip docs scores)) = s :: rest
    /\ docs !! j = Some d /\ scores !! j = Some s
    /\ forall i d', i < j -> docs !! i = Some d' -> P d' = false.
Proof.
  induction docs as [|x docs IH]; intros [|s scores] d kept Hlen Hf;
    try discriminate.
  cbn in Hf |- *. destruct (P x) eqn:Ex.
  - injection Hf as -> _. exists 0, s. eexists. split_and!; [reflexivity..|].
    intros i d' Hi. lia.
  - destruct (IH scores d kept) as (j & s' & rest & Hm & Hd & Hs & Hbefore);
      [by injection Hlen|exact Hf|].
    exists (S j), s', rest. split_and!; [exact Hm|exact Hd|exact Hs|].
    intros [|i] d' Hi; cbn; [by intros [= <-]|]. apply Hbefore. lia.
Qed.

End FastAPIFacts.

Section AskFacts.
Import Np DocumentRetriever FastAPI.
Context `{NumPy}.
Variable encode_query : string -> result vector.
Variable invoke : string -> result TextExtraction.llm_response.
Variable str_response : TextExtraction.llm_response -> string.

(** X15. An answer of [/ask] comes from at most three documents of the
    store that pass [is_text_chunk], joined in ranking order; the context
    returned has at most 503 characters; and the score returned is the
    score of the first kept document, never the fallback [0]. *)
Theorem answered_from_kept_chunks retriever query answer context score :
  ask_question encode_query invoke str_response retriever query
  = Answered answer context score ->
  exists emb q docs scores d kept j,
    document_embeddings retriever = Some emb
    /\ encode_query query = Ok q
    /\ SimpleRetriever.retrieve
         {| SimpleRetriever.documents := documents retriever;
            SimpleRetriever.embeddings := emb |} q 3 = (docs, scores)
    /\ List.filter is_text_chunk docs = d :: kept
    /\ List.length (d :: kept) <= 3
    /\ Forall (fun x => x ∈ documents retriever) (d :: kept)
    /\ context = preview (Str.join separator (d :: kept))
    /\ String.length context <= 503
    /\ answer = TextExtraction.ask_llm invoke str_response query
                  (prompt query (Str.join separator (d :: kept))) 4000
    /\ docs !! j = Some d /\ scores !! j = Some score
    /\ forall i d', i < j -> docs !! i = Some d' -> is_text_chunk d' = false.
Proof.
  unfold ask_question.
  destruct (documents retriever) as [|x xs] eqn:Edocs; [discriminate|].
  destruct (document_embeddings retriever) as [emb|]; [|discriminate].
  destruct (encode_query query) as [q|] eqn:Eq; [|discriminate].
  set (sr := {| SimpleRetriever.documents := x :: xs;
                SimpleRetriever.embeddings := emb |}).
  destruct (SimpleRetriever.retrieve sr q 3) as [docs scores] eqn:Er.
  destruct (List.filter is_text_chunk docs) as [|d kept] eqn:Ef; [discriminate|].
  intros [= <- <- <-].
  destruct (retrieve_shape sr q 3 docs scores Er) as (Hlen & _ & Hin).
  pose proof (retrieve_at_most sr q 3 ltac:(lia)) as Hmost. rewrite Er in Hmost.
  destruct (first_kept is_text_chunk docs scores d kept Hlen Ef)
    as (j & s & rest & Hm & Hd & Hs & Hbefore).
  rewrite Hm.
  exists emb, q, docs, scores, d, kept, j.
  split_and!; try done.
  - rewrite <- Ef. etrans; [apply List.filter_length_le|]. exact Hmost.
  - rewrite <- Ef. apply Forall_forall. intros y Hy.
    apply list_elem_of_In, filter_In in Hy as [Hy _].
    rewrite Forall_forall in Hin. by apply Hin, list_elem_of_In.
  - apply length_preview.
Qed.

(** X16. [/ask] declines in two distinguishable ways: with the message
    of the empty store exactly when there is no document or no embedding,
    before any model is called; with the message of no relevant
    information only when the query was embedded and none of the ranked
    documents passed [is_text_chunk]. *)
Theorem refusals_are_distinct retriever query :
  no_documents <> nothing_relevant
  /\ (ask_question encode_query invoke str_response retriever query
      = AnswerOnly no_documents
      <-> documents retriever = [] \/ document_embeddings retriever = None)
  /\ (ask_question encode_query invoke str_response retriever query
      = AnswerOnly nothing_relevant ->
      exists emb q,
        document_embeddings retriever = Some emb
        /\ encode_query query = Ok q
        /\ Forall (fun d => is_text_chunk d = false)
             (SimpleRetriever.retrieve
                {| SimpleRetriever.documents := documents retriever;
                   SimpleRetriever.embeddings := emb |} q 3).1).
Proof.
  split_and!; [discriminate| |].
  - unfold ask_question. split.
    + destruct (documents retriever) as [|x xs]; [by left|].
      destruct (document_embeddings retriever) as [emb|]; [|by right].
      destruct (encode_query query) as [q|]; [|discriminate].
      destruct (SimpleRetriever.retrieve _ q 3) as [docs scores].
      by destruct (List.filter is_text_chunk docs).
    + intros [->| ->]; [reflexivity|]. by destruct (documents retriever).
  - unfold ask_question.
    destruct (documents retriever) as [|x xs]; [discriminate|].
    destruct (document_embeddings retriever) as [emb|]; [|discriminate].
    destruct (encode_query query) as [q|]; [|discriminate].
    destruct (SimpleRetriever.retrieve _ q 3) as [docs scores] eqn:Er.
    destruct (List.filter is_text_chunk docs) as [|d kept] eqn:Ef; [|discriminate].
    intros _. exists emb, q. split_and!; [reflexivity..|]. cbn [fst].
    apply Forall_forall. intros d Hd. apply not_true_iff_false. intros Ht.
    assert (In d (List.filter is_text_chunk docs)) as Hin.
    { apply filter_In. split; [|exact Ht]. apply list_elem_of_In.
      by rewrite Er in Hd. }
    by rewrite Ef in Hin.
Qed.

End AskFacts.

(** ** The upload handler *)

Section UploadFacts.
Import Np DocumentRetriever Upload FastAPI.
Context `{NumPy}.
Variable ocr_extract : string -> string -> result string.
Variable chunk_text : string -> Z -> result (list string).
Variable encode : list string -> result matrix.
Variable commit : list DocumentChunk -> list DocumentChunk -> result unit.

(** What the ingest does to the table and the retriever. *)
Lemma ingest_outcome table r chunks :
  let out := ingest encode commit table r chunks in
  (out.2 = (table, r) /\ out.1 <> Ingested)
  \/ exists embeddings,
       encode chunks = Ok embeddings
       /\ (forall e, out.1 <> DbError e)
       /\ out.2.1 = table ++ rows_of chunks embeddings
       /\ documents out.2.2 = map text out.2.1.
Proof.
  unfold ingest. destruct (encode chunks) as [embeddings|e] eqn:E1;
    [|left; by eauto].
  destruct (commit table (rows_of chunks embeddings)); [|left; by eauto].
  right. exists embeddings.
  destruct (encode (map text _)); by split_and!.
Qed.

Lemma new_rows_texts (P : string -> Prop) chunks (embeddings : matrix) :
  Forall P chunks ->
  Forall (fun row => P (text row)) (rows_of chunks embeddings).
Proof.
  intros Hall. revert embeddings. unfold rows_of.
  induction Hall as [|c chunks Hc _ IH]; intros [|e embeddings]; cbn;
    constructor; [exact Hc|apply IH].
Qed.

(** The states of the table and the retriever after the body. *)
Lemma upload_body_outcome st temp_file content :
  let out := upload_body ocr_extract chunk_text encode commit st temp_file content in
  (out.2 = (db st, retriever st) /\ exists e, out.1 = inl e)
  \/ exists ocr_text raw_chunks,
       ocr_extract temp_file content = Ok ocr_text
       /\ chunk_text ocr_text 1500 = Ok raw_chunks
       /\ List.filter is_text_chunk raw_chunks <> []
       /\ out.2 = (ingest encode commit (db st) (retriever st)
                     (List.filter is_text_chunk raw_chunks)).2
       /\ match (ingest encode commit (db st) (retriever st)
                   (List.filter is_text_chunk raw_chunks)).1 with
          | Ingested =>
              out.1 = inr (List.length (List.filter is_text_chunk raw_chunks),
                           String.length ocr_text)
          | ModelError e => out.1 = inl (Exception e)
          | DbError e => out.1 = inl (HTTPException 500 (DbFailed e))
          end.
Proof.
  unfold upload_body.
  destruct (ocr_extract temp_file content) as [ocr_text|e]; [|left; by eauto].
  destruct (String.eqb (strip ocr_text) ""); [left; by eauto|].
  destruct (chunk_text ocr_text 1500) as [raw_chunks|e] eqn:Ec;
    [|left; by eauto].
  destruct (List.filter is_text_chunk raw_chunks) as [|c chunks] eqn:Ef;
    [left; by eauto|].
  right. exists ocr_text, raw_chunks. rewrite Ef.
  destruct (ingest encode commit (db st) (retriever st) (c :: chunks))
    as [[|e|e] after]; cbn; split_and!; done.
Qed.

(** X17. Every failure of [/upload] leaves the handler as status 500,
    also the two that are raised as 400 inside it; a failure raised by
    the handler itself leaves the table and the retriever untouched; and
    on every path the file [temp_<filename>] is gone afterwards, whatever
    was stored under that name before. *)
Theorem upload_fails_with_500 st filename content :
  let temp_file := "temp_" +:+ filename in
  let r := upload ocr_extract chunk_text encode commit st filename content in
  files r.2 = delete temp_file (files st)
  /\ match r.1 with
     | Processed n _ => 0 < n
     | Rejected status cause =>
         status = 500
         /\ match cause with
            | HTTPException _ _ => db r.2 = db st /\ retriever r.2 = retriever st
            | Exception _ => True
            end
     end.
Proof.
  intros temp_file r. unfold r, upload. fold temp_file.
  destruct (upload_body_outcome st temp_file content)
    as [[Hsame [e He]]|(ocr_text & raw & _ & _ & Hne & Hst & Hres)].
  - destruct (upload_body _ _ _ _ st temp_file content) as [out [db' r']].
    cbn [fst snd] in *. injection Hsame as -> ->. subst out. cbn.
    split; [apply delete_insert_eq|]. split; [reflexivity|]. by destruct e.
  - destruct (upload_body _ _ _ _ st temp_file content) as [out [db' r']].
    cbn [fst snd] in *. split.
    { destruct out as [e|[n len]]; cbn; apply delete_insert_eq. }
    destruct (ingest_outcome (db st) (retriever st)
                (List.filter is_text_chunk raw)) as [[Hsame _]|(_ & _ & Hdb & _ & _)].
    + rewrite Hsame in Hst. injection Hst as -> ->.
      destruct (ingest encode commit (db st) (retriever st) _).1;
        subst out; cbn; [|done|done].
      destruct (List.filter is_text_chunk raw); [done|cbn; lia].
    + destruct (ingest encode commit (db st) (retriever st) _).1 as [|e|e];
        subst out; cbn; [|done|by destruct (Hdb e)].
      destruct (List.filter is_text_chunk raw); [done|cbn; lia].
Qed.

(** X18. The table only ever receives text chunks: if every row passes
    [is_text_chunk] before an upload, every row does after it, the old
    rows coming first and unchanged; when the upload succeeds the
    retriever holds the texts of all rows, old and new, and the number of
    new rows is at most the number of chunks it reports. *)
Theorem upload_stores_text_chunks st filename content :
  Forall (fun row => is_text_chunk (text row) = true) (db st) ->
  let r := upload ocr_extract chunk_text encode commit st filename content in
  Forall (fun row => is_text_chunk (text row) = true) (db r.2)
  /\ db st `prefix_of` db r.2
  /\ forall n len,
       r.1 = Processed n len ->
       documents (retriever r.2) = map text (db r.2)
       /\ List.length (db r.2) <= List.length (db st) + n.
Proof.
  intros Hrows r. unfold r, upload.
  destruct (upload_body_outcome st ("temp_" +:+ filename) content)
    as [[Hsame [e He]]|(ocr_text & raw & _ & _ & Hne & Hst & Hres)].
  - destruct (upload_body _ _ _ _ st _ content) as [out [db' r']].
    cbn [fst snd] in *. injection Hsame as -> ->. subst out. cbn.
    split_and!; [exact Hrows|reflexivity|discriminate].
  - destruct (upload_body _ _ _ _ st _ content) as [out [db' r']].
    cbn [fst snd] in *.
    set (chunks := List.filter is_text_chunk raw) in *.
    assert (Forall (fun c => is_text_chunk c = true) chunks) as Hchunks.
    { apply Forall_forall. intros c Hc. unfold chunks in Hc.
      by apply list_elem_of_In, filter_In in Hc as [_ Hc]. }
    destruct (ingest_outcome (db st) (retriever st) chunks)
      as [[Hsame Hfail]|(embeddings & _ & _ & Hdb & Hdocs)].
    + rewrite Hsame in Hst. injection Hst as -> ->.
      destruct (ingest encode commit (db st) (retriever st) chunks).1;
        [done| |]; subst out; cbn;
        (split_and!; [exact Hrows|reflexivity|discriminate]).
    + rewrite <- Hst in Hdb, Hdocs. cbn [fst snd] in Hdb, Hdocs.
      assert (Forall (fun row => is_text_chunk (text row) = true) db') as Hall.
      { rewrite Hdb. apply Forall_app. split; [exact Hrows|].
        by apply (new_rows_texts (fun c => is_text_chunk c = true)). }
      assert (db st `prefix_of` db') as Hpre by (rewrite Hdb; by eexists).
      destruct out as [e|[n len]]; cbn;
        (split_and!; [exact Hall|exact Hpre|]); [discriminate|].
      intros n' len' [= <- <-]. split; [exact Hdocs|].
      destruct (ingest encode commit (db st) (retriever st) chunks).1;
        [|discriminate|discriminate].
      injection Hres as -> _.
      rewrite Hdb, length_app. unfold rows_of. rewrite length_zip_with. lia.
Qed.

End UploadFacts.

(** ** The language model calls *)

Section LlmFacts.
Import TextExtraction.
Variable invoke : string -> result llm_response.
Variable str_response : llm_response -> string.

(** X19. The context that [ask_llm] puts into the prompt is the given
    one when it has at most [max_context_length] characters, and
    otherwise its first [max_context_length] characters followed by the
    15 characters of the truncation mark: the prompt never carries more
    than [max_context_length + 15] characters of context. *)
Theorem context_is_bounded context max_context_length :
  (0 <= max_context_length)%Z ->
  let sent := truncated context max_context_length in
  String.length sent <= Z.to_nat max_context_length + 15
  /\ (String.length context <= Z.to_nat max_context_length -> sent = context)
  /\ (Z.to_nat max_context_length < String.length context ->
      sent = Str.take (Z.to_nat max_context_length) context +:+ "... [truncated]")
  /\ forall query,
       String.length (prompt query sent)
       = String.length (prompt "" "") + String.length query + String.length sent.
Proof.
  intros Hmax sent. unfold sent, truncated.
  destruct (Z.ltb_spec max_context_length (Z.of_nat (String.length context)))
    as [Hlt|Hle].
  - rewrite slice_to_nonneg by done. split_and!.
    + rewrite length_append, length_take. cbn. lia.
    + lia.
    + reflexivity.
    + intros query. unfold prompt. rewrite !length_append. cbn. lia.
  - split_and!; [lia|reflexivity|lia|].
    intros query. unfold prompt. rewrite !length_append. cbn. lia.
Qed.

(** X20. A response with the key ["choices"] is read through its first
    choice only: the answer is [choices[0]["message"]["content"]], and
    when the list of choices is empty the answer is the error text of an
    [IndexError], even if the response also has the key ["content"]. *)
Theorem choices_come_first query context max_context_length d :
  invoke (prompt query (truncated context max_context_length)) = Ok (RespDict d) ->
  (forall choice rest message v,
      Py.lookup d "choices" = Some (JList (JDict choice :: rest)) ->
      Py.lookup choice "message" = Some (JDict message) ->
      Py.lookup message "content" = Some v ->
      ask_llm invoke str_response query context max_context_length = Reply v)
  /\ (Py.lookup d "choices" = Some (JList []) ->
      ask_llm invoke str_response query context max_context_length
      = ErrorReply IndexError)
  /\ (forall v,
      Py.lookup d "choices" = None -> Py.lookup d "content" = Some v ->
      ask_llm invoke str_response query context max_context_length = Reply v).
Proof.
  intros Hinv. unfold ask_llm. rewrite Hinv. cbn [mbind result_bind unwrap].
  split_and!.
  - intros choice rest message v -> Hm Hc. cbn. rewrite Hm. cbn. by rewrite Hc.
  - by intros ->.
  - by intros v -> ->.
Qed.

End LlmFacts.

Section BedrockFacts.
Import TextExtraction MoreSpec.
Context `{JsonCodec}.
Variable invoke_model : string -> call_outcome.

Lemma text_items_blocks items blocks :
  Forall2 is_block items blocks ->
  text_items items
  = Ok (map (fun b => JStr b.2) (List.filter (fun b => String.eqb b.1 "text") blocks)).
Proof.
  induction 1 as [|item [ty tx] items blocks (d & -> & Hty & Htx) _ IH];
    [reflexivity|].
  cbn [text_items Py.get List.filter fst]. cbn in Hty, Htx. rewrite Hty.
  cbn [from_option id mbind result_bind]. unfold Py.eq_str.
  destruct (String.eqb_spec ty "text") as [->|Hne].
  - cbn [Py.getitem]. rewrite (Htx eq_refl). cbn [mbind result_bind].
    rewrite IH. reflexivity.
  - exact IH.
Qed.

Lemma strings_of_strs (l : list string) :
  strings_of (map JStr l) = Ok l.
Proof. induction l as [|s l IH]; [reflexivity|]. cbn. by rewrite IH. Qed.

(** X21. From a response whose ["content"] is a list of blocks,
    [invoke_claude_bedrock] returns the texts of the blocks of type
    ["text"], in order and joined by newlines, ignoring every other
    block; it returns [None] when there is no such block, and when the
    response has no ["content"] at all. *)
Theorem bedrock_joins_text_blocks prompt body d :
  invoke_model prompt = Returned body -> loads body = Ok (JDict d) ->
  (Py.lookup d "content" = None -> invoke_claude_bedrock invoke_model prompt = BNone)
  /\ forall items blocks,
       Py.lookup d "content" = Some (JList items) ->
       Forall2 is_block items blocks ->
       invoke_claude_bedrock invoke_model prompt
       = match List.filter (fun b => String.eqb b.1 "text") blocks with
         | [] => BNone
         | texts => BText (Str.join Str.newline (map snd texts))
         end.
Proof.
  intros Hcall Hbody. unfold invoke_claude_bedrock. rewrite Hcall, Hbody.
  cbn [Py.get]. split.
  - by intros ->.
  - intros items blocks -> Hblocks.
    cbn [from_option id mbind result_bind Py.iter].
    rewrite (text_items_blocks _ _ Hblocks). cbn [mbind result_bind].
    destruct (List.filter _ blocks) as [|b texts]; [reflexivity|].
    replace (map (fun b0 : string * string => JStr b0.2) (b :: texts))
      with (map JStr (map snd (b :: texts))) by (by rewrite map_map).
    by rewrite strings_of_strs.
Qed.

End BedrockFacts.

(** * Concrete runs *)

(** ** Inputs of the runs *)

Module Runs.
Import ChatHistory ChatHistorySpec.
Import Np DocumentRetriever RetrieverSpec Upload TextExtraction FastAPI.

(** The store of the application, in the working directory. *)
Definition store : ChatHistory.t :=
  {| storage_dir := "./chat_history"; storage_ready := eq_refl |}.

(** The place of a session file, and the directory that holds one file. *)
Definition session_place (name : string) : Os.location :=
  RefOs.app_dir ++ ["chat_history"; name].
Definition session_file (name content : string) : Os.files :=
  Os.Files {[ session_place name := content ]}.

(** What [json.dumps] prints. *)
Definition printed (v : json) : string :=
  match RefJson.ref_dumps v with Ok s => s | Raise _ => "" end.

Definition hello : call :=
  {| c_uid := "6f1c"; c_now := "2024-05-01T10:00:00.000001";
     c_role := "user"; c_content := "hello";
     c_document_context := None; c_metadata := None |}.



Definition list_record : string := "[]".
Definition roleless_record : string :=
  printed (JDict [("session_id", JStr "s1");
                  ("messages", JList [JDict [("content", JStr "hello")]])]).

(** A corpus of three chunks with two-dimensional embeddings. *)
Definition corpus : SimpleRetriever.t :=
  {| SimpleRetriever.documents := ["Paris is the capital of France.";
                      "The Eiffel Tower is in Paris.";
                      "Berlin is the capital of Germany."];
     SimpleRetriever.embeddings := [[1; 0]; [3; 4]; [0; 1]]%Q |}.

(** An embedding model that fails, one that answers a unit vector per
    text, and one that answers a single vector whatever it is given. *)
Definition no_model : list string -> result matrix := fun _ => Raise RuntimeError.
Definition unit_model : list string -> result matrix :=
  fun docs => Ok (map (fun _ => [1%Q]) docs).
Definition no_query_model : string -> result vector := fun _ => Raise RuntimeError.
Definition no_hybrid :
  list string -> SimpleRetriever.t -> string -> result hybrid_result :=
  fun _ _ _ => Raise RuntimeError.

(** A database that stores, and one that refuses. *)
Definition accept : list DocumentChunk -> list DocumentChunk -> result unit :=
  fun _ _ => Ok tt.
Definition refuse : list DocumentChunk -> list DocumentChunk -> result unit :=
  fun _ _ => Raise RuntimeError.

(** Three chunks that pass [is_text_chunk] and one that does not. *)
Definition paris : string := "Paris is the capital and largest city of France.".
Definition berlin : string := "Berlin is the capital and largest city of Germany.".
Definition page_object : string :=
  "OCRPageObj(index=0, markdown=..., images=[], dimensions=...)".

(** A retriever loaded with the three chunks. *)
Definition library : DocumentRetriever.t :=
  {| documents := [page_object; paris; berlin];
     document_embeddings := Some [[1; 0]; [1; 0]; [0; 1]]%Q |}.

(** A query model, and a language model that answers with an object
    that has the attribute [content]. *)
Definition axis_model : string -> result vector := fun _ => Ok [1; 0]%Q.
Definition paris_llm : string -> result llm_response :=
  fun _ => Ok (RespObject (JStr "Paris.")).
Definition no_str : llm_response -> string := fun _ => "<response>".

(** A language model whose response has an empty list of choices beside
    a content. *)
Definition no_choice_llm : string -> result llm_response :=
  fun _ => Ok (RespDict [("choices", JList []); ("content", JStr "Paris.")]).

(** A Bedrock response of three blocks, the second a tool call. *)
Definition blocks : list json :=
  [JDict [("type", JStr "text"); ("text", JStr "Paris")];
   JDict [("type", JStr "tool_use"); ("name", JStr "search")];
   JDict [("type", JStr "text"); ("text", JStr "France")]].
Definition blocks_body : string := printed (JDict [("content", JList blocks)]).
Definition blocks_model : string -> call_outcome := fun _ => Returned blocks_body.

(** The application with one stored chunk, an OCR that reads the text
    of the file, a chunker that cuts it in two, and one that answers two
    text chunks. *)
Definition one_row : app :=
  {| db := [{| text := paris; embedding := "[1.0]" |}];
     retriever := {| documents := [paris]; document_embeddings := Some [[1]]%Q |};
     files := ∅ |}.
Definition read_ocr : string -> string -> result string :=
  fun _ content => Ok content.
Definition two_chunks : string -> Z -> result (list string) :=
  fun text _ => Ok [text; page_object].

End Runs.

(** ** Runs of the claims *)

(** The rationals are totally ordered. *)
Lemma ref_leb_total : RetrieverSpec.leb_total (H := ref_numpy).
Proof.
  intros x y. cbn. rewrite !Qle_bool_iff.
  destruct (Qlt_le_dec x y) as [Hlt|Hle]; [left; by apply Qlt_le_weak|by right].
Qed.

Section Examples.
Import ChatHistory Np DocumentRetriever Runs.

Example session_path : _get_session_path store "s1" = "./chat_history/s1.json".
Proof. reflexivity. Qed.

(** The session file is in the storage directory of the working
    directory. *)
Example session_place_s1 :
  Os.locate ∅ (_get_session_path store "s1") = Ok (session_place "s1.json").
Proof. reflexivity. Qed.

(** An absolute session id replaces the storage directory. *)
Example session_path_absolute :
  _get_session_path store "/tmp/s1" = "/tmp/s1.json".
Proof. reflexivity. Qed.

Example strip_blanks : strip "  a b  " = "a b" /\ strip "   " = "".
Proof. split; reflexivity. Qed.

Example slice_last_cases :
  slice_last 2 [1; 2; 3] = [2; 3]
  /\ slice_last 5 [1; 2; 3] = [1; 2; 3]
  /\ slice_last 0 [1; 2; 3] = [1; 2; 3]
  /\ slice_last (-1) [1; 2; 3] = [2; 3].
Proof. repeat split. Qed.

(** The best two chunks of [corpus] for the query [(1, 0)]. *)
Example retrieve_corpus :
  SimpleRetriever.retrieve corpus [1; 0]%Q 2
  = (["Paris is the capital of France."; "The Eiffel Tower is in Paris."],
     [1000000000 # 1000000001; 1000000000 # 1666666667]%Q).
Proof. reflexivity. Qed.

(** A query of another dimension: the shape error is caught. *)
Example retrieve_wrong_shape :
  SimpleRetriever.retrieve corpus [1]%Q 2 = ([], []).
Proof. reflexivity. Qed.

(** A file that holds a JSON list is not a session record:
    [get_messages] raises, it is not a decoding error. *)
Example list_record_raises :
  get_messages store (session_file "s1.json" "[1, 2]") "s1"
  = Raise AttributeError.
Proof. reflexivity. Qed.

(** An embedding is written as Python writes a list of floats. *)
Example embedding_text :
  tolist_dumps [1; 0]%Q = "[1.0, 0.0]" /\ tolist_dumps [1 # 4; -5 # 2]%Q = "[0.25, -2.5]".
Proof. split; reflexivity. Qed.

End Examples.

Section Witnesses.
Import ChatHistory ChatHistorySpec.
Import Np DocumentRetriever RetrieverSpec Upload FastAPI Runs.









Lemma semantic_scorer_top_k_witness :
  (exists scores,
      SimpleRetriever.cosine_scores (SimpleRetriever.embeddings corpus) [1; 0]%Q
      = Ok scores
      /\ forall i row,
           SimpleRetriever.embeddings corpus !! i = Some row ->
           scores !! i
           = Some (div (vdot row [1; 0]%Q)
                     (add (mul (vnorm row) (vnorm [1; 0]%Q)) eps)))
  /\ ranks_top_k corpus [1; 0]%Q 2.
Proof.
  apply (semantic_scorer_top_k ref_leb_total corpus [1; 0]%Q 2);
    [repeat constructor|reflexivity|lia].
Defined.

Lemma retrieve_on_empty_store_witness :
  exists self',
    add_documents unit_model init ["  "; ""] = (Ok tt, self')
    /\ documents self' = []
    /\ retrieve no_query_model no_hybrid self' "capital of France" 5
         (7 # 10)%Q (3 # 10)%Q = [].
Proof.
  apply (proj2 (proj2 (retrieve_on_empty_store unit_model no_query_model
                         no_hybrid "capital of France" 5 (7 # 10)%Q (3 # 10)%Q)));
    [discriminate|repeat constructor].
Defined.



End Witnesses.

(** ** Runs of the further properties *)

Section MoreWitnesses.
Import ChatHistory ChatHistorySpec MoreSpec.
Import Np DocumentRetriever Upload TextExtraction FastAPI Runs.

Lemma session_paths_distinct_witness :
  Os.locate ∅ (_get_session_path store "s1")
  = Ok (storage_location store ++ ["s1" +:+ ".json"])
  /\ (same_file ∅ (_get_session_path store "s1") (_get_session_path store "s2")
      <-> "s1" = "s2")
  /\ same_file ∅ (_get_session_path store ("./" +:+ "s1"))
       (_get_session_path store "s1")
  /\ _get_session_path store ("./" +:+ "s1") <> _get_session_path store "s1".
Proof. apply (session_paths_distinct store ∅ "s1" "s2"); reflexivity. Defined.

Lemma other_sessions_untouched_witness :
  let fs := (add_messages store ∅ "s2" [hello]).2 in
  let after_add :=
    (add_message store fs "a2b7" "2024-05-01T10:00:02.500000" "s1"
       "assistant" "hi there" None None).2 in
  let after_clear := (clear_session store fs "s1").2 in
  get_messages store after_add "s2" = get_messages store fs "s2"
  /\ get_session_stats store after_add "s2" = get_session_stats store fs "s2"
  /\ get_messages store after_clear "s2" = get_messages store fs "s2"
  /\ get_session_stats store after_clear "s2" = get_session_stats store fs "s2".
Proof.
  intros fs.
  apply (other_sessions_untouched store fs "s1" "s2" "a2b7"
           "2024-05-01T10:00:02.500000" "assistant" "hi there" None None).
  intros (k & H1 & H2). vm_compute in H1, H2. congruence.
Defined.

Lemma corrupt_record_witness :
  let fs := session_file "s1.json" "{oops" in
  let msg := new_message "6f1c" "2024-05-01T10:00:00.000001" "user" "hello"
               None None in
  (add_message store fs "6f1c" "2024-05-01T10:00:00.000001" "s1" "user"
     "hello" None None).1 = Ok msg
  /\ get_messages store
       (add_message store fs "6f1c" "2024-05-01T10:00:00.000001" "s1" "user"
          "hello" None None).2 "s1"
     = Ok (JList [msg]).
Proof.
  intros fs.
  apply (corrupt_record_is_overwritten store fs "s1" "{oops" "6f1c"
           "2024-05-01T10:00:00.000001" "user" "hello" None None);
    reflexivity.
Defined.

Lemma failed_append_witness :
  let fs := session_file "s1.json" list_record in
  let out := add_message store fs "6f1c" "2024-05-01T10:00:00.000001" "s1"
               "user" "hello" None None in
  let msg := new_message "6f1c" "2024-05-01T10:00:00.000001" "user" "hello"
               None None in
  (get_messages store fs "s1" = Raise AttributeError /\ out.2 = fs)
  \/ (exists v, get_messages store fs "s1" = Ok v /\ not_a_list v
                /\ AttributeError = AttributeError /\ out.2 = fs)
  \/ (exists old, get_messages store fs "s1" = Ok (JList old)
                  /\ Os.locate fs (_get_session_path store "s1")
                     = Raise AttributeError
                  /\ out.2 = fs)
  \/ (exists old k, get_messages store fs "s1" = Ok (JList old)
                    /\ Os.locate fs (_get_session_path store "s1") = Ok k
                    /\ dumps (record (old ++ [msg])) = Raise AttributeError
                    /\ out.2 = Os.Files (<[k := ""]> (Os.regular fs))
                    /\ get_messages store out.2 "s1" = Ok (JList [])).
Proof.
  intros fs.
  apply (failed_append_cases store fs "s1" "6f1c"
           "2024-05-01T10:00:00.000001" "user" "hello" None None AttributeError).
  reflexivity.
Defined.


Lemma stats_need_a_role_witness :
  get_session_stats store (session_file "s1.json" roleless_record) "s1"
  = Raise KeyError.
Proof.
  apply (stats_need_a_role store (session_file "s1.json" roleless_record) "s1"
           [JDict [("content", JStr "hello")]]).
  - vm_compute. reflexivity.
  - constructor; [by eexists|constructor].
  - constructor. eexists. split; reflexivity.
Defined.


Lemma documents_are_trimmed_witness :
  Forall (fun d => d <> "" /\ strip d = d
                   /\ exists c, c ∈ ["  Paris "; "   "; "Berlin"] /\ d = strip c)
    (documents (add_documents unit_model init ["  Paris "; "   "; "Berlin"]).2).
Proof.
  apply (documents_are_trimmed unit_model init ["  Paris "; "   "; "Berlin"]).
  discriminate.
Defined.

Lemma failed_load_witness :
  let self := {| documents := ["old"]; document_embeddings := Some [[1]]%Q |} in
  let after := (add_documents no_model self ["Paris"; "Berlin"]).2 in
  (add_documents no_model self ["Paris"; "Berlin"]).1 = Raise RuntimeError
  /\ documents after = ["Paris"; "Berlin"]
  /\ document_embeddings after = Some [[1]]%Q.
Proof.
  intros self.
  destruct (failed_load_is_half_applied no_model no_query_model no_hybrid self
              ["Paris"; "Berlin"] RuntimeError) as (H1 & H2 & H3 & _).
  - vm_compute. discriminate.
  - reflexivity.
  - split_and!; [exact H1|exact H2|exact H3].
Defined.

Lemma scorer_nonpositive_k_witness :
  List.length (SimpleRetriever.retrieve corpus [1; 0]%Q (-1)).1 = 2
  /\ List.length (SimpleRetriever.retrieve corpus [1; 0]%Q (-1)).2 = 2.
Proof.
  apply (scorer_nonpositive_k corpus [1; 0]%Q (-1));
    [repeat constructor|reflexivity|lia].
Defined.

Lemma answered_witness :
  exists emb q docs scores d kept j,
    document_embeddings library = Some emb
    /\ axis_model "capital?" = Ok q
    /\ SimpleRetriever.retrieve
         {| SimpleRetriever.documents := documents library;
            SimpleRetriever.embeddings := emb |} q 3 = (docs, scores)
    /\ List.filter is_text_chunk docs = d :: kept
    /\ List.length (d :: kept) <= 3
    /\ Forall (fun x => x ∈ documents library) (d :: kept)
    /\ Str.join separator [paris; berlin]
       = preview (Str.join separator (d :: kept))
    /\ String.length (Str.join separator [paris; berlin]) <= 503
    /\ Reply (JStr "Paris.")
       = ask_llm paris_llm no_str "capital?"
           (FastAPI.prompt "capital?" (Str.join separator (d :: kept))) 4000
    /\ docs !! j = Some d /\ scores !! j = Some (1000000000 # 1000000001)
    /\ forall i d', i < j -> docs !! i = Some d' -> is_text_chunk d' = false.
Proof.
  apply (answered_from_kept_chunks axis_model paris_llm no_str library
           "capital?" (Reply (JStr "Paris."))
           (Str.join separator [paris; berlin]) (1000000000 # 1000000001)).
  reflexivity.
Defined.

Lemma upload_stores_witness :
  let r := upload read_ocr two_chunks unit_model accept one_row "a.pdf" berlin in
  Forall (fun row => is_text_chunk (text row) = true) (db r.2)
  /\ db one_row `prefix_of` db r.2
  /\ forall n len,
       r.1 = Processed n len ->
       documents (retriever r.2) = map text (db r.2)
       /\ List.length (db r.2) <= List.length (db one_row) + n.
Proof.
  apply (upload_stores_text_chunks read_ocr two_chunks unit_model accept one_row
           "a.pdf" berlin).
  repeat constructor.
Defined.

Lemma context_is_bounded_witness :
  let sent := truncated "Paris is the capital." 5 in
  String.length sent <= 5 + 15
  /\ (String.length "Paris is the capital." <= 5 -> sent = "Paris is the capital.")
  /\ (5 < String.length "Paris is the capital." ->
      sent = Str.take 5 "Paris is the capital." +:+ "... [truncated]")
  /\ forall query,
       String.length (TextExtraction.prompt query sent)
       = String.length (TextExtraction.prompt "" "") + String.length query
         + String.length sent.
Proof.
  apply (context_is_bounded "Paris is the capital." 5). lia.
Defined.

Lemma choices_come_first_witness :
  ask_llm no_choice_llm no_str "capital?" paris 4000 = ErrorReply IndexError.
Proof.
  destruct (choices_come_first no_choice_llm no_str "capital?" paris 4000
              [("choices", JList []); ("content", JStr "Paris.")] eq_refl)
    as (_ & Hempty & _).
  apply Hempty. reflexivity.
Defined.

Lemma bedrock_joins_witness :
  invoke_claude_bedrock blocks_model "capital?"
  = BText ("Paris" +:+ Str.newline +:+ "France").
Proof.
  destruct (bedrock_joins_text_blocks blocks_model "capital?" blocks_body
              [("content", JList blocks)] eq_refl)
    as [_ Hblocks].
  - vm_compute. reflexivity.
  - refine (Hblocks blocks
              [("text", "Paris"); ("tool_use", ""); ("text", "France")]
              eq_refl _).
    repeat constructor; eexists; (split_and!; [reflexivity|reflexivity|]);
      first [reflexivity|discriminate].
Defined.

End MoreWitnesses.
